(** * BlueprintEventNodeSpawner: a shallow embedding

    The event-node spawner of the Blueprint graph editor
    (Engine/Source/Editor/BlueprintGraph/Private/BlueprintEventNodeSpawner.cpp)
    over an arena model of the editor objects: nodes, pins and graphs live in
    index-addressed tables, a pointer is an index, and [nullptr] is [None]. *)

From Stdlib Require Import ZArith Lia String List.
From stdpp Require Import base tactics option list strings.
Import ListNotations.

Local Open Scope string_scope.
Local Open Scope list_scope.
Local Open Scope nat_scope.

(** ** Names *)

(** An [FName] is compared by identity; the model takes one string per
    name. *)
Definition FName := string.
Definition NAME_None : FName := "None".
Definition IsNone (Name : FName) : bool := bool_decide (Name = NAME_None).

(** ** Object handles *)

Abbreviation NodeId := nat (only parsing).
Abbreviation PinId := nat (only parsing).
Abbreviation GraphId := nat (only parsing).

(** ** Reflection data: classes and functions *)

Record UClass := {
  ClassObject : nat;
  (** what [GetAuthoritativeClass()] answers for this class *)
  AuthoritativeClass : nat
}.

Record UFunction := {
  FunctionObject : nat;
  FuncFName : FName;
  OwnerClass : UClass
}.

Definition GetFName (F : UFunction) : FName := FuncFName F.
Definition GetOwnerClass (F : UFunction) : UClass := OwnerClass F.
Definition GetAuthoritativeClass (C : UClass) : nat := AuthoritativeClass C.

(** ** Graph objects *)

Record FMemberReference := {
  MemberParent : option nat;
  MemberName : FName
}.

(** The node classes the spawner tells apart: [UK2Node_Event] and its
    subclasses (numbered), [UK2Node_FunctionEntry], anything else. *)
Inductive UNodeClass :=
| K2Node_Event (Sub : nat)
| K2Node_FunctionEntry
| K2Node_Other.

Record UEdGraphNode := {
  NodeClassOf : UNodeClass;
  Pins : list PinId;
  (** answer of [IsAutomaticallyPlacedGhostNode()] *)
  bAutomaticallyPlacedGhost : bool;
  NodePosX : Z;
  NodePosY : Z;
  (** the [UK2Node_Event] members written by the spawner *)
  EventReference : FMemberReference;
  bOverrideFunction : bool;
  CustomFunctionName : FName
}.

Record UEdGraphPin := {
  OwningNode : option NodeId;
  LinkedTo : list PinId
}.

Record UBlueprint := {
  (** the event graphs of the blueprint *)
  UbergraphPages : list GraphId;
  FunctionGraphs : list (option GraphId)
}.

Record UEdGraph := {
  GraphFName : FName;
  Nodes : list NodeId;
  (** the blueprint found by walking the outer chain, if any *)
  OuterBlueprint : option UBlueprint;
  (** answer of [FBlueprintNodeTemplateCache::IsTemplateOuter] *)
  bTemplateOuter : bool
}.

Record State := {
  NodeObjs : list UEdGraphNode;
  PinObjs : list UEdGraphPin;
  GraphObjs : list UEdGraph
}.

(** ** Reading the object tables *)

Definition IsAutomaticallyPlacedGhostNode (st : State) (N : NodeId) : bool :=
  match NodeObjs st !! N with
  | Some Obj => bAutomaticallyPlacedGhost Obj
  | None => false
  end.

Definition PinsOf (st : State) (N : NodeId) : list PinId :=
  match NodeObjs st !! N with
  | Some Obj => Pins Obj
  | None => []
  end.

Definition LinkedToOf (st : State) (P : PinId) : list PinId :=
  match PinObjs st !! P with
  | Some Obj => LinkedTo Obj
  | None => []
  end.

Definition GetOwningNode (st : State) (P : PinId) : option NodeId :=
  match PinObjs st !! P with
  | Some Obj => OwningNode Obj
  | None => None
  end.

Definition NodesOf (st : State) (G : GraphId) : list NodeId :=
  match GraphObjs st !! G with
  | Some Obj => Nodes Obj
  | None => []
  end.

(** ** Pin and graph primitives *)

(** [TArray::Remove]: drops every occurrence. *)
Definition RemoveAll (x : nat) (l : list nat) : list nat :=
  List.filter (fun y => negb (Nat.eqb y x)) l.

Definition Unlink (Target : PinId) (P : UEdGraphPin) : UEdGraphPin :=
  {| OwningNode := OwningNode P; LinkedTo := RemoveAll Target (LinkedTo P) |}.

Definition AlterPin (f : UEdGraphPin -> UEdGraphPin) (P : PinId) (st : State) : State :=
  {| NodeObjs := NodeObjs st;
     PinObjs := alter f P (PinObjs st);
     GraphObjs := GraphObjs st |}.

(** Modelled from the spec: [UEdGraphPin::BreakLinkTo] is declared in
    EdGraph/EdGraphPin.h and defined outside this translation unit; the spec
    has the cascade "sever the link on both ends". [BreakLinkTo Self ToPin]
    drops [ToPin] from the links of [Self] and [Self] from the links of
    [ToPin]. *)
Definition BreakLinkTo (Self ToPin : PinId) (st : State) : State :=
  AlterPin (Unlink Self) ToPin (AlterPin (Unlink ToPin) Self st).

(** Modelled from the spec: [UEdGraphNode::BreakAllNodeLinks], declared in
    EdGraph/EdGraphNode.h, is what the spec calls "disconnect": every pin of
    the node breaks every link it holds. *)
Definition BreakAllPinLinks (P : PinId) (st : State) : State :=
  fold_left (fun s Other => BreakLinkTo P Other s) (LinkedToOf st P) st.

Definition BreakAllNodeLinks (N : NodeId) (st : State) : State :=
  fold_left (fun s P => BreakAllPinLinks P s) (PinsOf st N) st.

Definition AlterGraph (f : UEdGraph -> UEdGraph) (G : GraphId) (st : State) : State :=
  {| NodeObjs := NodeObjs st;
     PinObjs := PinObjs st;
     GraphObjs := alter f G (GraphObjs st) |}.

Definition WithNodes (f : list NodeId -> list NodeId) (G : UEdGraph) : UEdGraph :=
  {| GraphFName := GraphFName G; Nodes := f (Nodes G);
     OuterBlueprint := OuterBlueprint G; bTemplateOuter := bTemplateOuter G |}.

(** Modelled from the spec: [UEdGraph::RemoveNode], declared in
    EdGraph/EdGraph.h, is what the spec calls "delete the original": the node
    leaves the node collection of the graph. *)
Definition RemoveNode (G : GraphId) (N : NodeId) (st : State) : State :=
  AlterGraph (WithNodes (RemoveAll N)) G st.

(** ** The ghost cascade *)

(** A loop whose body may run out of fuel. *)
Fixpoint ForEach {A : Type} (Body : A -> State -> option State)
    (l : list A) (st : State) : option State :=
  match l with
  | [] => Some st
  | x :: l' =>
      match Body x st with
      | Some st' => ForEach Body l' st'
      | None => None
      end
  end.

Module UBlueprintEventNodeSpawnerImpl.

(** [RemoveGhostNodes(InNode, InParentGraph)], lines 49-68. The recursion of
    the source is not structural, so a fuel counter bounds its depth; [None]
    means the fuel ran out. [InNode->Pins] is never changed by the body, so
    the range of the outer loop is read once; [LinkedToCopy] is read when the
    loop reaches [Pin], as in the source. *)
Fixpoint RemoveGhostNodes (Fuel : nat) (InNode : option NodeId)
    (InParentGraph : GraphId) (st : State) : option State :=
  match Fuel with
  | 0 => None
  | S Fuel' =>
      match InNode with
      | None => Some st
      | Some N =>
          if IsAutomaticallyPlacedGhostNode st N then
            match
              ForEach (fun Pin s =>
                let LinkedToCopy := LinkedToOf s Pin in
                ForEach (fun OtherPin s' =>
                  let s'' := BreakLinkTo OtherPin Pin s' in
                  RemoveGhostNodes Fuel' (GetOwningNode s'' OtherPin)
                    InParentGraph s'')
                  LinkedToCopy s)
                (PinsOf st N) st
            with
            | Some st1 => Some (RemoveNode InParentGraph N (BreakAllNodeLinks N st1))
            | None => None
            end
          else Some st
      end
  end.

End UBlueprintEventNodeSpawnerImpl.
Import UBlueprintEventNodeSpawnerImpl.

(** Number of link entries held by all pins: the measure of the cascade. *)
Definition LinkCount (st : State) : nat :=
  list_sum (map (fun P => length (LinkedTo P)) (PinObjs st)).

(** The cascade run with fuel that is always enough (see
    [RemoveGhostNodes_enough_fuel]). *)
Definition RunRemoveGhostNodes (InNode : option NodeId) (InParentGraph : GraphId)
    (st : State) : State :=
  match RemoveGhostNodes (S (LinkCount st)) InNode InParentGraph st with
  | Some st' => st'
  | None => st
  end.

(** ** Assertions *)

(** A [check(...)] that fails stops the editor: the call has no result. *)
Inductive Checked (A : Type) : Type :=
| Ok (a : A)
| AssertionFailed.
Arguments Ok {A} a.
Arguments AssertionFailed {A}.

(** ** The spawner object *)

Definition FCustomizeNodeDelegate : Type :=
  option (UEdGraphNode -> bool -> UEdGraphNode).

Definition ExecuteIfBound (Delegate : FCustomizeNodeDelegate)
    (NewNode : UEdGraphNode) (bIsTemplateNode : bool) : UEdGraphNode :=
  match Delegate with
  | Some f => f NewNode bIsTemplateNode
  | None => NewNode
  end.

Record UBlueprintEventNodeSpawner := {
  (** a [TSubclassOf<UK2Node_Event>]: the number of the event subclass *)
  NodeClass : nat;
  EventFunc : option UFunction;
  CustomEventName : FName;
  CustomizeNodeDelegate : FCustomizeNodeDelegate
}.

(** [Create(EventFunc, Outer)], lines 75-101, without the menu texts. *)
Definition CreateForFunction (Func : option UFunction)
    : Checked UBlueprintEventNodeSpawner :=
  match Func with
  | None => AssertionFailed
  | Some F =>
      Ok {| NodeClass := 0; EventFunc := Some F;
            CustomEventName := NAME_None; CustomizeNodeDelegate := None |}
  end.

(** [Create(NodeClass, CustomEventName, Outer)], lines 104-132, without the
    menu texts; an unnamed request ("Add Custom Event...") is accepted. *)
Definition CreateForCustomEvent (Class : nat) (Name : FName)
    : UBlueprintEventNodeSpawner :=
  {| NodeClass := Class; EventFunc := None;
     CustomEventName := Name; CustomizeNodeDelegate := None |}.

(** [IsForCustomEvent()], lines 264-267. *)
Definition IsForCustomEvent (Sp : UBlueprintEventNodeSpawner) : bool :=
  match EventFunc Sp with
  | None => true
  | Some _ => false
  end.

(** ** Spawner signature *)

Inductive FSignatureEntry :=
| NamedValue (Key : FName) (Value : string)
| SubObject (Obj : option UFunction).

Record FBlueprintNodeSignature := {
  SignatureClass : nat;
  SignatureEntries : list FSignatureEntry
}.

Definition AddNamedValue (Key : FName) (Value : string)
    (Sig : FBlueprintNodeSignature) : FBlueprintNodeSignature :=
  {| SignatureClass := SignatureClass Sig;
     SignatureEntries := SignatureEntries Sig ++ [NamedValue Key Value] |}.

Definition AddSubObject (Obj : option UFunction)
    (Sig : FBlueprintNodeSignature) : FBlueprintNodeSignature :=
  {| SignatureClass := SignatureClass Sig;
     SignatureEntries := SignatureEntries Sig ++ [SubObject Obj] |}.

Definition CustomSignatureKey : FName := "CustomEvent".

(** [GetSpawnerSignature()], lines 142-155. *)
Definition GetSpawnerSignature (Sp : UBlueprintEventNodeSpawner)
    : FBlueprintNodeSignature :=
  let SpawnerSignature :=
    {| SignatureClass := NodeClass Sp; SignatureEntries := [] |} in
  if IsForCustomEvent Sp && negb (IsNone (CustomEventName Sp)) then
    AddNamedValue CustomSignatureKey (CustomEventName Sp) SpawnerSignature
  else
    AddSubObject (EventFunc Sp) SpawnerSignature.

(** ** Looking for the event in the blueprint *)

Definition NodeHas (st : State) (Pred : UEdGraphNode -> bool) (N : NodeId) : bool :=
  match NodeObjs st !! N with
  | Some Obj => Pred Obj
  | None => false
  end.

Definition IsEventNode (Obj : UEdGraphNode) : bool :=
  match NodeClassOf Obj with
  | K2Node_Event _ => true
  | _ => false
  end.

Definition IsFunctionEntry (Obj : UEdGraphNode) : bool :=
  match NodeClassOf Obj with
  | K2Node_FunctionEntry => true
  | _ => false
  end.

(** Modelled from the spec: [FBlueprintEditorUtils::GetAllNodesOfClass] is
    declared in Kismet2/BlueprintEditorUtils.h; the lookup is to "search the
    graph": the event nodes of the blueprint's event graphs, in placement
    order. *)
Definition GetAllEventNodes (st : State) (Blueprint : UBlueprint) : list NodeId :=
  List.filter (NodeHas st IsEventNode)
    (flat_map (NodesOf st) (UbergraphPages Blueprint)).

(** A [UK2Node_Event] carries one flag, [bOverrideFunction]: set, the node
    overrides the function named by [EventReference]; clear, the node is a
    custom event named by [CustomFunctionName]. *)
Definition IsCustomEventNamed (CustomName : FName) (Obj : UEdGraphNode) : bool :=
  negb (bOverrideFunction Obj) && bool_decide (CustomFunctionName Obj = CustomName).

Definition IsOverrideOf (SignatureClass : nat) (SignatureName : FName)
    (Obj : UEdGraphNode) : bool :=
  bOverrideFunction Obj
  && bool_decide (MemberParent (EventReference Obj) = Some SignatureClass)
  && bool_decide (MemberName (EventReference Obj) = SignatureName).

(** Modelled from the spec: [FBlueprintEditorUtils::FindCustomEventNode] is
    declared in Kismet2/BlueprintEditorUtils.h; it finds "a node flagged as a
    custom event with that exact name", the first one in search order. *)
Definition FindCustomEventNode (st : State) (Blueprint : UBlueprint)
    (CustomName : FName) : option NodeId :=
  List.find (NodeHas st (IsCustomEventNamed CustomName))
    (GetAllEventNodes st Blueprint).

(** Modelled from the spec: [FBlueprintEditorUtils::FindOverrideForFunction]
    is declared in Kismet2/BlueprintEditorUtils.h; it finds "a node flagged as
    an override of that exact function, scoped to the function's authoritative
    owning type", the first one in search order. *)
Definition FindOverrideForFunction (st : State) (Blueprint : UBlueprint)
    (SignatureClass : nat) (SignatureName : FName) : option NodeId :=
  List.find (NodeHas st (IsOverrideOf SignatureClass SignatureName))
    (GetAllEventNodes st Blueprint).

(** [FindPreExistingEvent(Blueprint, Bindings)], lines 243-261. *)
Definition FindPreExistingEvent (Sp : UBlueprintEventNodeSpawner) (st : State)
    (Blueprint : option UBlueprint) : Checked (option NodeId) :=
  match Blueprint with
  | None => AssertionFailed
  | Some BP =>
      if IsForCustomEvent Sp then
        Ok (FindCustomEventNode st BP (CustomEventName Sp))
      else
        match EventFunc Sp with
        | None => AssertionFailed
        | Some F =>
            let ClassOwner := GetAuthoritativeClass (GetOwnerClass F) in
            Ok (FindOverrideForFunction st BP ClassOwner (GetFName F))
        end
  end.

(** ** Spawning *)

(** Modelled from the spec: [FMemberReference::SetFromField] is declared in
    Engine/MemberReference.h; it is to "bind the node to the function
    reference", which the lookup reads back scoped to the authoritative owning
    class. *)
Definition SetFromField (F : UFunction) : FMemberReference :=
  {| MemberParent := Some (GetAuthoritativeClass (GetOwnerClass F));
     MemberName := GetFName F |}.

Definition WithEventReference (R : FMemberReference) (N : UEdGraphNode) : UEdGraphNode :=
  {| NodeClassOf := NodeClassOf N; Pins := Pins N;
     bAutomaticallyPlacedGhost := bAutomaticallyPlacedGhost N;
     NodePosX := NodePosX N; NodePosY := NodePosY N;
     EventReference := R; bOverrideFunction := true;
     CustomFunctionName := CustomFunctionName N |}.

Definition WithCustomFunctionName (Name : FName) (N : UEdGraphNode) : UEdGraphNode :=
  {| NodeClassOf := NodeClassOf N; Pins := Pins N;
     bAutomaticallyPlacedGhost := bAutomaticallyPlacedGhost N;
     NodePosX := NodePosX N; NodePosY := NodePosY N;
     EventReference := EventReference N;
     bOverrideFunction := bOverrideFunction N;
     CustomFunctionName := Name |}.

(** [PostSpawnLambda], lines 211-225. *)
Definition PostSpawnLambda (NewNode : UEdGraphNode) (bInIsTemplateNode : bool)
    (InEventFunc : option UFunction) (InEventName : FName)
    (UserDelegate : FCustomizeNodeDelegate) : UEdGraphNode :=
  let K2EventNode :=
    match InEventFunc with
    | Some F => WithEventReference (SetFromField F) NewNode
    | None =>
        if negb bInIsTemplateNode then WithCustomFunctionName InEventName NewNode
        else NewNode
    end in
  ExecuteIfBound UserDelegate K2EventNode bInIsTemplateNode.

Definition IsTemplateOuter (st : State) (G : GraphId) : bool :=
  match GraphObjs st !! G with
  | Some Obj => bTemplateOuter Obj
  | None => false
  end.

(** A node as its constructor leaves it: enabled, unlinked, unnamed. *)
Definition NewObject (Class : nat) (Location : Z * Z) : UEdGraphNode :=
  {| NodeClassOf := K2Node_Event Class; Pins := [];
     bAutomaticallyPlacedGhost := false;
     NodePosX := fst Location; NodePosY := snd Location;
     EventReference := {| MemberParent := None; MemberName := NAME_None |};
     bOverrideFunction := false;
     CustomFunctionName := NAME_None |}.

(** Modelled from the spec: [UBlueprintNodeSpawner::SpawnNode] belongs to the
    base class, in BlueprintNodeSpawner.cpp; it is to "create a new GraphNode
    of the requested kind, attach it to graph at position" and run the
    post-spawn delegate on it. The new object takes the next free slot of the
    node table. *)
Definition SpawnNode (Class : nat) (ParentGraph : GraphId) (Location : Z * Z)
    (PostSpawnDelegate : FCustomizeNodeDelegate) (st : State) : NodeId * State :=
  let bIsTemplateNode := IsTemplateOuter st ParentGraph in
  let NewNode := ExecuteIfBound PostSpawnDelegate (NewObject Class Location) bIsTemplateNode in
  let Id := length (NodeObjs st) in
  (Id, {| NodeObjs := NodeObjs st ++ [NewNode];
          PinObjs := PinObjs st;
          GraphObjs := alter (WithNodes (fun l => l ++ [Id])) ParentGraph (GraphObjs st) |}).

(** ** Invoke *)

(** [FBlueprintEditorUtils::FindBlueprintForGraphChecked]: what
    [FindBlueprintForGraph] answers is a member of the graph object here, and
    the checked variant asserts that the answer is not null. *)
Definition FindBlueprintForGraphChecked (st : State) (G : GraphId) : Checked UBlueprint :=
  match GraphObjs st !! G with
  | Some Obj =>
      match OuterBlueprint Obj with
      | Some BP => Ok BP
      | None => AssertionFailed
      end
  | None => AssertionFailed
  end.

(** [GetNodesOfClass<UK2Node_FunctionEntry>] on a function graph. *)
Definition GetFunctionEntryNodes (st : State) (FuncGraph : UEdGraph) : list NodeId :=
  List.filter (NodeHas st IsFunctionEntry) (Nodes FuncGraph).

(** The loop of lines 183-198. [None]: the loop ran to its end;
    [Some Result]: the loop returned [Result] from [Invoke]. *)
Fixpoint FocusOnFunctionGraph (st : State) (EventName : FName)
    (Graphs : list (option GraphId)) : option (option NodeId) :=
  match Graphs with
  | [] => None
  | FuncGraph :: Rest =>
      match FuncGraph ≫= (fun G => GraphObjs st !! G) with
      | Some Obj =>
          if bool_decide (GraphFName Obj = EventName) then
            match GetFunctionEntryNodes st Obj with
            | Entry :: _ => Some (Some Entry)
            | [] => Some None
            end
          else FocusOnFunctionGraph st EventName Rest
      | None => FocusOnFunctionGraph st EventName Rest
      end
  end.

(** The event name of lines 176-180. *)
Definition EventNameOf (Sp : UBlueprintEventNodeSpawner) : FName :=
  match EventFunc Sp with
  | None => CustomEventName Sp
  | Some F => GetFName F
  end.

(** [Invoke(ParentGraph, Bindings, Location)], lines 158-234. *)
Definition Invoke (Sp : UBlueprintEventNodeSpawner) (ParentGraph : option GraphId)
    (Location : Z * Z) (st : State) : Checked (option NodeId * State) :=
  match ParentGraph with
  | None => AssertionFailed
  | Some G =>
  match FindBlueprintForGraphChecked st G with
  | AssertionFailed => AssertionFailed
  | Ok Blueprint =>
  match
    (if negb (IsTemplateOuter st G)
     then FindPreExistingEvent Sp st (Some Blueprint)
     else Ok None)
  with
  | AssertionFailed => AssertionFailed
  | Ok PreExistingNode =>
  let bIsCustomEvent := IsForCustomEvent Sp in
  if negb (bIsCustomEvent || bool_decide (EventFunc Sp ≠ None)) then AssertionFailed
  else
  let EventName := EventNameOf Sp in
  match FocusOnFunctionGraph st EventName (FunctionGraphs Blueprint) with
  | Some Result => Ok (Result, st)
  | None =>
      let '(EventNode, st1) :=
        match PreExistingNode with
        | Some N =>
            if IsAutomaticallyPlacedGhostNode st N
            then (None, RunRemoveGhostNodes (Some N) G st)
            else (Some N, st)
        | None => (None, st)
        end in
      match EventNode with
      | None =>
          let PostSpawnDelegate :=
            Some (fun NewNode bIsTemplate =>
                    PostSpawnLambda NewNode bIsTemplate (EventFunc Sp) EventName
                      (CustomizeNodeDelegate Sp)) in
          let '(NewNode, st2) :=
            SpawnNode (NodeClass Sp) G Location PostSpawnDelegate st1 in
          Ok (Some NewNode, st2)
      | Some N => Ok (Some N, st1)
      end
  end
  end
  end
  end.


(** ** The cascade, loop by loop *)

(** The body of the inner loop (lines 59-61) and the inner loop itself
    (lines 56-62), named so that statements can mention them. *)
Definition Visit (Fuel : nat) (G : GraphId) (Pin OtherPin : PinId) (s : State)
    : option State :=
  let s' := BreakLinkTo OtherPin Pin s in
  RemoveGhostNodes Fuel (GetOwningNode s' OtherPin) G s'.

Definition Sweep (Fuel : nat) (G : GraphId) (Pin : PinId) (s : State)
    : option State :=
  ForEach (Visit Fuel G Pin) (LinkedToOf s Pin) s.

Definition Links (P : UEdGraphPin) : nat := length (LinkedTo P).

(** ** Vocabulary of the statements *)

Definition GraphMeta (st : State) (G : GraphId)
    : option (FName * option UBlueprint * bool) :=
  match GraphObjs st !! G with
  | Some Obj => Some (GraphFName Obj, OuterBlueprint Obj, bTemplateOuter Obj)
  | None => None
  end.

(** [Cascaded st st']: [st'] comes from [st] by breaking links and by taking
    ghost nodes out of graphs, nothing else. *)
Record Cascaded (st st' : State) : Prop := {
  casc_nodes : NodeObjs st' = NodeObjs st;
  casc_owner : forall P, GetOwningNode st' P = GetOwningNode st P;
  casc_links : forall P Q, In Q (LinkedToOf st' P) -> In Q (LinkedToOf st P);
  casc_count : LinkCount st' <= LinkCount st;
  casc_meta : forall G, GraphMeta st' G = GraphMeta st G;
  casc_graph : forall G N, In N (NodesOf st' G) -> In N (NodesOf st G);
  casc_live : forall G N,
    In N (NodesOf st G) -> IsAutomaticallyPlacedGhostNode st N = false ->
    In N (NodesOf st' G)
}.

(** A node is done with once it is out of the graph and none of its pins
    holds a link. *)
Definition Done (G : GraphId) (st : State) (N : NodeId) : Prop :=
  ~ In N (NodesOf st G) /\ forall P, In P (PinsOf st N) -> LinkedToOf st P = [].

(** Every link entry that went away between [st0] and [st] pointed at a pin
    whose owner, when a ghost, is done with (or is [Self], still at work). *)
Definition Consumed (G : GraphId) (Self : option NodeId) (st0 st : State) : Prop :=
  forall P Q Y,
    In Q (LinkedToOf st0 P) -> ~ In Q (LinkedToOf st P) ->
    GetOwningNode st0 Q = Some Y ->
    IsAutomaticallyPlacedGhostNode st0 Y = true ->
    Done G st Y \/ Self = Some Y.

(** Every node that left the graph between [st0] and [st] is done with. *)
Definition Retired (G : GraphId) (st0 st : State) : Prop :=
  forall Y, In Y (NodesOf st0 G) -> ~ In Y (NodesOf st G) -> Done G st Y.

(** [GhostChain st A Y]: [Y] is reached from the ghost [A] by walking from a
    pin of a ghost over a link to the owner of the far pin, a ghost again. *)
Inductive GhostChain (st : State) (A : NodeId) : NodeId -> Prop :=
| chain_start :
    IsAutomaticallyPlacedGhostNode st A = true -> GhostChain st A A
| chain_link (X Y : NodeId) (P Q : PinId) :
    GhostChain st A X ->
    In P (PinsOf st X) -> In Q (LinkedToOf st P) ->
    GetOwningNode st Q = Some Y ->
    IsAutomaticallyPlacedGhostNode st Y = true ->
    GhostChain st A Y.

(** *** Well-formed pin tables *)

Definition Mem (x : nat) (l : list nat) : bool := existsb (Nat.eqb x) l.

(** a pin listed by a node is owned by that node *)
Definition PinsOwned (st : State) : Prop :=
  forall N P, In P (PinsOf st N) -> GetOwningNode st P = Some N.

(** a pin owned by a node is listed by that node *)
Definition OwnedPinsListed (st : State) : Prop :=
  forall N P, GetOwningNode st P = Some N -> In P (PinsOf st N).

(** links are held at both ends *)
Definition LinksSymmetric (st : State) : Prop :=
  forall P Q, In Q (LinkedToOf st P) -> In P (LinkedToOf st Q).

Definition PinsOwnedb (st : State) : bool :=
  forallb (fun N =>
    forallb (fun P => bool_decide (GetOwningNode st P = Some N)) (PinsOf st N))
    (seq 0 (length (NodeObjs st))).

Definition OwnedPinsListedb (st : State) : bool :=
  forallb (fun P =>
    match GetOwningNode st P with
    | Some N => Mem P (PinsOf st N)
    | None => true
    end) (seq 0 (length (PinObjs st))).

Definition LinksSymmetricb (st : State) : bool :=
  forallb (fun P => forallb (fun Q => Mem P (LinkedToOf st Q)) (LinkedToOf st P))
    (seq 0 (length (PinObjs st))).

Definition WellFormedPins (st : State) : bool :=
  PinsOwnedb st && OwnedPinsListedb st && LinksSymmetricb st.

(** ** Vocabulary for [Invoke] *)

(** What the lookup of [FindPreExistingEvent] tests on a node, by identity. *)
Definition MatchesIdentity (Sp : UBlueprintEventNodeSpawner) (Obj : UEdGraphNode) : bool :=
  match EventFunc Sp with
  | None => IsCustomEventNamed (CustomEventName Sp) Obj
  | Some F => IsOverrideOf (GetAuthoritativeClass (GetOwnerClass F)) (GetFName F) Obj
  end.

(** The node object [Invoke] puts in the node table when it spawns. *)
Definition SpawnedNode (Sp : UBlueprintEventNodeSpawner) (bIsTemplateNode : bool)
    (Location : Z * Z) : UEdGraphNode :=
  PostSpawnLambda (NewObject (NodeClass Sp) Location) bIsTemplateNode
    (EventFunc Sp) (EventNameOf Sp) (CustomizeNodeDelegate Sp).

(** The state [Invoke] leaves when it spawns from [st]. *)
Definition Spawned (Sp : UBlueprintEventNodeSpawner) (G : GraphId)
    (Location : Z * Z) (st : State) : State :=
  {| NodeObjs := NodeObjs st ++ [SpawnedNode Sp (IsTemplateOuter st G) Location];
     PinObjs := PinObjs st;
     GraphObjs :=
       alter (WithNodes (fun l => l ++ [length (NodeObjs st)])) G (GraphObjs st) |}.

(** A customization hook that leaves the class, the enabled state and the
    event members of the new node as the spawner set them. An unbound hook
    does. *)
Definition KeepsIdentity (Delegate : FCustomizeNodeDelegate) : Prop :=
  match Delegate with
  | None => True
  | Some f =>
      forall Obj b,
        NodeClassOf (f Obj b) = NodeClassOf Obj
        /\ bAutomaticallyPlacedGhost (f Obj b) = bAutomaticallyPlacedGhost Obj
        /\ EventReference (f Obj b) = EventReference Obj
        /\ bOverrideFunction (f Obj b) = bOverrideFunction Obj
        /\ CustomFunctionName (f Obj b) = CustomFunctionName Obj
  end.

(** Number of nodes of the blueprint that the lookup would accept. *)
Definition MatchCount (Sp : UBlueprintEventNodeSpawner) (st : State)
    (Blueprint : UBlueprint) : nat :=
  length (List.filter (NodeHas st (MatchesIdentity Sp)) (GetAllEventNodes st Blueprint)).

(** [FuncGraph] is a function graph object named [Name]: the test of
    line 185. *)
Definition NamedFunctionGraph (st : State) (Name : FName)
    (FuncGraph : option GraphId) : bool :=
  match FuncGraph ≫= (fun G => GraphObjs st !! G) with
  | Some Obj => bool_decide (GraphFName Obj = Name)
  | None => false
  end.

(** No graph of [Graphs] is named [Name]. *)
Definition NoneNamed (st : State) (Name : FName)
    (Graphs : list (option GraphId)) : bool :=
  forallb (fun FuncGraph => negb (NamedFunctionGraph st Name FuncGraph)) Graphs.

(** ** Further vocabulary of the cascade *)

(** [P] is a pin of a ghost on a chain from [A]. *)
Definition OnChainPin (st : State) (A : NodeId) (P : PinId) : Prop :=
  exists N, GhostChain st A N /\ In P (PinsOf st N).

(** Between [s] and [s'] only ghosts on a chain from [A] in [st0] left a
    graph, and only [G]; only link entries with an end on a pin of such a
    ghost went away; the node lists of the other graphs are the same. *)
Definition RemovedOnChain (st0 : State) (A : NodeId) (G : GraphId)
    (s s' : State) : Prop :=
  (forall G' Y, In Y (NodesOf s G') -> ~ In Y (NodesOf s' G') ->
                G' = G /\ GhostChain st0 A Y)
  /\ (forall P Q, In Q (LinkedToOf s P) -> ~ In Q (LinkedToOf s' P) ->
                  OnChainPin st0 A P \/ OnChainPin st0 A Q)
  /\ (forall G', G' <> G -> NodesOf s' G' = NodesOf s G').

(** A customization hook that leaves the pins of the new node alone. *)
Definition LeavesPins (Delegate : FCustomizeNodeDelegate) : Prop :=
  match Delegate with
  | None => True
  | Some f => forall Obj b, Pins (f Obj b) = Pins Obj
  end.

(** ** The rest of the spawner *)

(** [GetEventFunction()], lines 237-240. *)
Definition GetEventFunction (Sp : UBlueprintEventNodeSpawner) : option UFunction :=
  EventFunc Sp.

(** Two spawners ask for the same event: same node class, same function
    reference and, without a function reference, same custom name. *)
Definition SameIdentity (A B : UBlueprintEventNodeSpawner) : Prop :=
  NodeClass A = NodeClass B
  /\ EventFunc A = EventFunc B
  /\ (EventFunc A = None -> CustomEventName A = CustomEventName B).

(** *** Menu entries *)

Record FBlueprintActionUiSpec := {
  MenuName : string;
  Category : string;
  Keywords : string;
  Icon : string
}.

(** What [UEdGraphSchema_K2::GetFriendlySignatureName],
    [UK2Node_CallFunction::GetDefaultCategoryForFunction] (under "Add Event")
    and [UK2Node_CallFunction::GetKeywordsForFunction] answer for a
    function. *)
Record FFunctionUiData := {
  FriendlySignatureName : string;
  DefaultCategoryForFunction : string;
  KeywordsForFunction : string
}.

Definition IsEmpty (Text : string) : bool := bool_decide (Text = "").

(** [FText::Format] of the pattern "Event {0}". *)
Definition EventWithSignatureName (Name : string) : string := "Event " ++ Name.

(** The menu entry of [Create(EventFunc, Outer)], lines 88-98. *)
Definition MenuSignatureForFunction (Ui : FFunctionUiData) : FBlueprintActionUiSpec :=
  let FuncName := FriendlySignatureName Ui in
  let FoundKeywords := KeywordsForFunction Ui in
  {| MenuName := EventWithSignatureName FuncName;
     Category := DefaultCategoryForFunction Ui;
     Keywords := if IsEmpty FoundKeywords then " " else FoundKeywords;
     Icon := "GraphEditor.Event_16x" |}.

(** The menu entry of [Create(NodeClass, CustomEventName, Outer)], lines
    115-129; category, tooltip and keywords are left to the node template. *)
Definition MenuSignatureForCustomEvent (Name : FName) : FBlueprintActionUiSpec :=
  if IsNone Name then
    {| MenuName := "Add Custom Event..."; Category := ""; Keywords := "";
       Icon := "GraphEditor.CustomEvent_16x" |}
  else
    {| MenuName := EventWithSignatureName Name; Category := ""; Keywords := "";
       Icon := "GraphEditor.Event_16x" |}.

(** ** Sample graphs *)

Module Samples.

Definition Node (Class : UNodeClass) (PinIds : list PinId) (Ghost Override : bool)
    (Ref : FMemberReference) (Custom : FName) : UEdGraphNode :=
  {| NodeClassOf := Class; Pins := PinIds;
     bAutomaticallyPlacedGhost := Ghost; NodePosX := 0; NodePosY := 0;
     EventReference := Ref; bOverrideFunction := Override;
     CustomFunctionName := Custom |}.

Definition NoRef : FMemberReference :=
  {| MemberParent := None; MemberName := NAME_None |}.

Definition Pin (Owner : NodeId) (Links : list PinId) : UEdGraphPin :=
  {| OwningNode := Some Owner; LinkedTo := Links |}.

Definition EventGraphOnly : UBlueprint :=
  {| UbergraphPages := [0]; FunctionGraphs := [] |}.

(** A ghost event "Foo" (node 0) chained to a ghost call (node 1) chained to
    a second ghost (node 2), which also feeds a live node (node 3):
    pins 0-1, 2-3 and 4-5 are linked both ways. *)
Definition ChainState : State :=
  {| NodeObjs :=
       [ Node (K2Node_Event 0) [0] true false NoRef "Foo";
         Node K2Node_Other [1; 2] true false NoRef NAME_None;
         Node K2Node_Other [3; 4] true false NoRef NAME_None;
         Node K2Node_Other [5] false false NoRef NAME_None ];
     PinObjs :=
       [ Pin 0 [1]; Pin 1 [0]; Pin 1 [3]; Pin 2 [2]; Pin 2 [5]; Pin 3 [4] ];
     GraphObjs :=
       [ {| GraphFName := "EventGraph"; Nodes := [0; 1; 2; 3];
            OuterBlueprint := Some EventGraphOnly; bTemplateOuter := false |} ] |}.


Definition FooShadowed : UBlueprint :=
  {| UbergraphPages := [0]; FunctionGraphs := [None; Some 1] |}.

(** A ghost custom event "Foo" (node 0) in the event graph, and a function
    graph named "Foo" with its entry node (node 1). *)
Definition ShadowState : State :=
  {| NodeObjs :=
       [ Node (K2Node_Event 1) [] true false NoRef "Foo";
         Node K2Node_FunctionEntry [] false false NoRef NAME_None ];
     PinObjs := [];
     GraphObjs :=
       [ {| GraphFName := "EventGraph"; Nodes := [0];
            OuterBlueprint := Some FooShadowed; bTemplateOuter := false |};
         {| GraphFName := "Foo"; Nodes := [1];
            OuterBlueprint := Some FooShadowed; bTemplateOuter := false |} ] |}.

(** The same blueprint with the entry node of "Foo" disabled the way an
    automatically placed ghost is. *)
Definition GhostEntryState : State :=
  {| NodeObjs :=
       [ Node (K2Node_Event 1) [] true false NoRef "Foo";
         Node K2Node_FunctionEntry [] true false NoRef NAME_None ];
     PinObjs := [];
     GraphObjs :=
       [ {| GraphFName := "EventGraph"; Nodes := [0];
            OuterBlueprint := Some FooShadowed; bTemplateOuter := false |};
         {| GraphFName := "Foo"; Nodes := [1];
            OuterBlueprint := Some FooShadowed; bTemplateOuter := false |} ] |}.

(** The same blueprint with the entry node of "Foo" missing. *)
Definition NoEntryState : State :=
  {| NodeObjs := [ Node (K2Node_Event 1) [] true false NoRef "Foo" ];
     PinObjs := [];
     GraphObjs :=
       [ {| GraphFName := "EventGraph"; Nodes := [0];
            OuterBlueprint := Some FooShadowed; bTemplateOuter := false |};
         {| GraphFName := "Foo"; Nodes := [];
            OuterBlueprint := Some FooShadowed; bTemplateOuter := false |} ] |}.

(** An empty event graph. *)
Definition EmptyState : State :=
  {| NodeObjs := []; PinObjs := [];
     GraphObjs :=
       [ {| GraphFName := "EventGraph"; Nodes := [];
            OuterBlueprint := Some EventGraphOnly; bTemplateOuter := false |} ] |}.

(** An empty graph that is the outer of a node template. *)
Definition TemplateState : State :=
  {| NodeObjs := []; PinObjs := [];
     GraphObjs :=
       [ {| GraphFName := "Template"; Nodes := [];
            OuterBlueprint := Some EventGraphOnly; bTemplateOuter := true |} ] |}.

(** Three ghosts linked in a triangle: pin 0 of node 0 holds links to pin 1
    of node 1 and to pin 3 of node 2, and pin 2 of node 1 is linked to pin 4
    of node 2. *)
Definition TriangleState : State :=
  {| NodeObjs :=
       [ Node (K2Node_Event 0) [0] true false NoRef "Foo";
         Node K2Node_Other [1; 2] true false NoRef NAME_None;
         Node K2Node_Other [3; 4] true false NoRef NAME_None ];
     PinObjs :=
       [ Pin 0 [1; 3]; Pin 1 [0]; Pin 1 [4]; Pin 2 [0]; Pin 2 [2] ];
     GraphObjs :=
       [ {| GraphFName := "EventGraph"; Nodes := [0; 1; 2];
            OuterBlueprint := Some EventGraphOnly; bTemplateOuter := false |} ] |}.

(** A ghost custom event "Foo" (node 0) ahead of a live one (node 1). *)
Definition TwoFooState : State :=
  {| NodeObjs :=
       [ Node (K2Node_Event 1) [] true false NoRef "Foo";
         Node (K2Node_Event 1) [] false false NoRef "Foo" ];
     PinObjs := [];
     GraphObjs :=
       [ {| GraphFName := "EventGraph"; Nodes := [0; 1];
            OuterBlueprint := Some EventGraphOnly; bTemplateOuter := false |} ] |}.

Definition ActorClass : UClass := {| ClassObject := 7; AuthoritativeClass := 7 |}.

Definition JumpFunction : UFunction :=
  {| FunctionObject := 42; FuncFName := "Jump"; OwnerClass := ActorClass |}.

(** A custom event named "Jump" (node 0) next to an override of the
    function "Jump" of class 7 (node 1). *)
Definition JumpState : State :=
  {| NodeObjs :=
       [ Node (K2Node_Event 1) [] false false NoRef "Jump";
         Node (K2Node_Event 0) [] false true
           {| MemberParent := Some 7; MemberName := "Jump" |} NAME_None ];
     PinObjs := [];
     GraphObjs :=
       [ {| GraphFName := "EventGraph"; Nodes := [0; 1];
            OuterBlueprint := Some EventGraphOnly; bTemplateOuter := false |} ] |}.

Definition JumpSpawner : UBlueprintEventNodeSpawner :=
  {| NodeClass := 0; EventFunc := Some JumpFunction;
     CustomEventName := NAME_None; CustomizeNodeDelegate := None |}.

End Samples.

Module MoreSamples.
Import Samples.

(** A ghost event "Foo" (node 0) linked to a live node (node 1), which is
    linked to a second live node (node 2), which is linked to a ghost
    (node 3): pins 0-1, 2-3 and 5-4 are linked both ways. *)
Definition MixedState : State :=
  {| NodeObjs :=
       [ Node (K2Node_Event 1) [0] true false NoRef "Foo";
         Node K2Node_Other [1; 2] false false NoRef NAME_None;
         Node K2Node_Other [3; 5] false false NoRef NAME_None;
         Node K2Node_Other [4] true false NoRef NAME_None ];
     PinObjs :=
       [ Pin 0 [1]; Pin 1 [0]; Pin 1 [3]; Pin 2 [2]; Pin 3 [5]; Pin 2 [4] ];
     GraphObjs :=
       [ {| GraphFName := "EventGraph"; Nodes := [0; 1; 2; 3];
            OuterBlueprint := Some EventGraphOnly; bTemplateOuter := false |} ] |}.

(** A live custom event "Foo" (node 0) in an event graph. *)
Definition LiveFooState : State :=
  {| NodeObjs := [ Node (K2Node_Event 1) [] false false NoRef "Foo" ];
     PinObjs := [];
     GraphObjs :=
       [ {| GraphFName := "EventGraph"; Nodes := [0];
            OuterBlueprint := Some EventGraphOnly; bTemplateOuter := false |} ] |}.

(** A spawner built with both a function reference and a custom name. *)
Definition JumpAndFoo : UBlueprintEventNodeSpawner :=
  {| NodeClass := 0; EventFunc := Some JumpFunction;
     CustomEventName := "Foo"; CustomizeNodeDelegate := None |}.

End MoreSamples.
(** * Properties *)

(** ** Link tables under [BreakLinkTo] *)

Lemma In_RemoveAll (x y : nat) (l : list nat) :
  In x (RemoveAll y l) <-> In x l /\ x <> y.
Proof.
  unfold RemoveAll. rewrite filter_In, Bool.negb_true_iff, Nat.eqb_neq.
  reflexivity.
Qed.

Lemma length_RemoveAll_le (y : nat) (l : list nat) :
  length (RemoveAll y l) <= length l.
Proof.
  induction l as [|a l IH]; simpl; [lia|].
  destruct (negb (a =? y)); simpl; lia.
Qed.

Lemma length_RemoveAll_lt (y : nat) (l : list nat) :
  In y l -> length (RemoveAll y l) < length l.
Proof.
  induction l as [|a l IH]; simpl; [tauto|].
  intros [->|Hin].
  - rewrite Nat.eqb_refl. simpl. pose proof (length_RemoveAll_le y l).
    unfold RemoveAll in *. lia.
  - specialize (IH Hin). destruct (negb (a =? y)); simpl; unfold RemoveAll in *; lia.
Qed.

Lemma LinkedToOf_Unlink (T P Q : nat) (st : State) :
  LinkedToOf (AlterPin (Unlink T) P st) Q =
  if decide (P = Q) then RemoveAll T (LinkedToOf st Q) else LinkedToOf st Q.
Proof.
  unfold LinkedToOf, AlterPin; simpl.
  destruct (decide (P = Q)) as [->|Hne].
  - rewrite list_lookup_alter_eq. destruct (PinObjs st !! Q); reflexivity.
  - rewrite list_lookup_alter_ne by assumption. reflexivity.
Qed.

Lemma GetOwningNode_AlterPin (T P Q : nat) (st : State) :
  GetOwningNode (AlterPin (Unlink T) P st) Q = GetOwningNode st Q.
Proof.
  unfold GetOwningNode, AlterPin; simpl.
  destruct (decide (P = Q)) as [->|Hne].
  - rewrite list_lookup_alter_eq. destruct (PinObjs st !! Q); reflexivity.
  - rewrite list_lookup_alter_ne by assumption. reflexivity.
Qed.

Lemma In_LinkedToOf_BreakLinkTo (a b x y : nat) (st : State) :
  In x (LinkedToOf (BreakLinkTo a b st) y) <->
  In x (LinkedToOf st y) /\ ~ (y = a /\ x = b) /\ ~ (y = b /\ x = a).
Proof.
  unfold BreakLinkTo. rewrite !LinkedToOf_Unlink.
  destruct (decide (b = y)) as [->|Hb], (decide (a = y)) as [->|Ha];
    rewrite ?In_RemoveAll; intuition congruence.
Qed.

Lemma GetOwningNode_BreakLinkTo (a b P : nat) (st : State) :
  GetOwningNode (BreakLinkTo a b st) P = GetOwningNode st P.
Proof. unfold BreakLinkTo. rewrite !GetOwningNode_AlterPin. reflexivity. Qed.

(** ** The measure: link entries never grow, and a real break shrinks them *)

Lemma list_sum_alter_le (f : UEdGraphPin -> UEdGraphPin) (i : nat)
    (l : list UEdGraphPin) :
  (forall P, Links (f P) <= Links P) ->
  list_sum (map Links (alter f i l)) <= list_sum (map Links l).
Proof.
  intros Hf. revert i. induction l as [|P l IH]; intros [|i]; simpl; try lia.
  - specialize (Hf P). lia.
  - specialize (IH i). change (list_alter f i l) with (alter f i l). lia.
Qed.

Lemma list_sum_alter_lt (f : UEdGraphPin -> UEdGraphPin) (i : nat)
    (l : list UEdGraphPin) (P : UEdGraphPin) :
  l !! i = Some P -> Links (f P) < Links P ->
  list_sum (map Links (alter f i l)) < list_sum (map Links l).
Proof.
  revert i. induction l as [|Q l IH]; intros [|i]; simpl; try discriminate.
  - intros [= ->] Hlt. lia.
  - intros Hl Hlt. specialize (IH i Hl Hlt).
    change (list_alter f i l) with (alter f i l). lia.
Qed.

Lemma LinkCount_Unlink_le (T P : nat) (st : State) :
  LinkCount (AlterPin (Unlink T) P st) <= LinkCount st.
Proof.
  unfold LinkCount, AlterPin; simpl. apply list_sum_alter_le.
  intros Q. unfold Links; simpl. apply length_RemoveAll_le.
Qed.

Lemma LinkCount_Unlink_lt (T P : nat) (st : State) :
  In T (LinkedToOf st P) ->
  LinkCount (AlterPin (Unlink T) P st) < LinkCount st.
Proof.
  unfold LinkedToOf, LinkCount, AlterPin; simpl.
  destruct (PinObjs st !! P) as [Obj|] eqn:HP; [|intros []].
  intros Hin. eapply list_sum_alter_lt; [exact HP|].
  unfold Links; simpl. apply length_RemoveAll_lt. exact Hin.
Qed.

Lemma LinkCount_BreakLinkTo_le (a b : nat) (st : State) :
  LinkCount (BreakLinkTo a b st) <= LinkCount st.
Proof.
  unfold BreakLinkTo.
  etransitivity; [apply LinkCount_Unlink_le|apply LinkCount_Unlink_le].
Qed.

(** Breaking the link back from [Other] to [Pin] while [Pin] still lists
    [Other] removes at least one entry. *)
Lemma LinkCount_BreakLinkTo_lt (Other Pin : nat) (st : State) :
  In Other (LinkedToOf st Pin) ->
  LinkCount (BreakLinkTo Other Pin st) < LinkCount st.
Proof.
  intros Hin. unfold BreakLinkTo.
  destruct (decide (Other = Pin)) as [->|Hne].
  - eapply Nat.le_lt_trans; [apply LinkCount_Unlink_le|].
    apply LinkCount_Unlink_lt. exact Hin.
  - eapply Nat.lt_le_trans; [|apply LinkCount_Unlink_le].
    apply LinkCount_Unlink_lt. rewrite LinkedToOf_Unlink.
    destruct (decide (Other = Pin)); [contradiction|exact Hin].
Qed.


(** ** Loops *)

Section LoopRules.
Context {A : Type} (R : State -> State -> Prop).
Hypothesis R_refl : forall s, R s s.
Hypothesis R_trans : forall s1 s2 s3, R s1 s2 -> R s2 s3 -> R s1 s3.

Lemma fold_left_rel (f : State -> A -> State) :
  (forall s x, R s (f s x)) ->
  forall l s, R s (fold_left f l s).
Proof.
  intros Hf l. induction l as [|x l IH]; intros s; simpl; [apply R_refl|].
  eapply R_trans; [apply Hf|apply IH].
Qed.

Lemma ForEach_rel (Body : A -> State -> option State) :
  (forall x s s', Body x s = Some s' -> R s s') ->
  forall l s s', ForEach Body l s = Some s' -> R s s'.
Proof.
  intros HB l. induction l as [|x l IH]; intros s s'; simpl.
  - intros [= <-]. apply R_refl.
  - destruct (Body x s) as [s1|] eqn:E; [|discriminate].
    intros H. eapply R_trans; [eapply HB, E|eapply IH, H].
Qed.
End LoopRules.

Lemma RemoveGhostNodes_unfold (Fuel : nat) (InNode : option NodeId)
    (G : GraphId) (st : State) :
  RemoveGhostNodes (S Fuel) InNode G st =
  match InNode with
  | None => Some st
  | Some N =>
      if IsAutomaticallyPlacedGhostNode st N then
        match ForEach (Sweep Fuel G) (PinsOf st N) st with
        | Some st1 => Some (RemoveNode G N (BreakAllNodeLinks N st1))
        | None => None
        end
      else Some st
  end.
Proof. reflexivity. Qed.

(** ** An induction principle for the cascade

    Whatever is kept by breaking one link and by taking one ghost out of the
    graph, and composes, is kept by the whole cascade. *)

Section CascadeInduction.
Variable R : State -> State -> Prop.
Hypothesis R_refl : forall s, R s s.
Hypothesis R_trans : forall s1 s2 s3, R s1 s2 -> R s2 s3 -> R s1 s3.
Hypothesis R_nodes : forall s s', R s s' -> NodeObjs s' = NodeObjs s.
Hypothesis R_break : forall a b s, R s (BreakLinkTo a b s).
Hypothesis R_remove : forall G N s,
  IsAutomaticallyPlacedGhostNode s N = true -> R s (RemoveNode G N s).

Lemma BreakAllPinLinks_rel (P : PinId) (st : State) :
  R st (BreakAllPinLinks P st).
Proof.
  unfold BreakAllPinLinks. apply (fold_left_rel R R_refl R_trans).
  intros s x. apply R_break.
Qed.

Lemma BreakAllNodeLinks_rel (N : NodeId) (st : State) :
  R st (BreakAllNodeLinks N st).
Proof.
  unfold BreakAllNodeLinks. apply (fold_left_rel R R_refl R_trans).
  intros s x. apply BreakAllPinLinks_rel.
Qed.

Lemma RemoveGhostNodes_rel (Fuel : nat) :
  forall InNode G st st',
    RemoveGhostNodes Fuel InNode G st = Some st' -> R st st'.
Proof.
  induction Fuel as [|Fuel IH]; intros InNode G st st'; [discriminate|].
  rewrite RemoveGhostNodes_unfold.
  destruct InNode as [N|]; [|intros [= <-]; apply R_refl].
  destruct (IsAutomaticallyPlacedGhostNode st N) eqn:Hghost;
    [|intros [= <-]; apply R_refl].
  destruct (ForEach (Sweep Fuel G) (PinsOf st N) st) as [st1|] eqn:Hloop;
    [|discriminate].
  intros [= <-].
  assert (R st st1) as H1.
  { revert Hloop. apply (ForEach_rel R R_refl R_trans).
    intros Pin s s'. apply (ForEach_rel R R_refl R_trans).
    intros Other t t' Hcall. eapply R_trans; [apply R_break|].
    eapply IH, Hcall. }
  eapply R_trans; [exact H1|].
  eapply R_trans; [apply BreakAllNodeLinks_rel|].
  apply R_remove.
  unfold IsAutomaticallyPlacedGhostNode in *.
  rewrite (R_nodes _ _ (BreakAllNodeLinks_rel N st1)), (R_nodes _ _ H1).
  exact Hghost.
Qed.
End CascadeInduction.

(** ** What the cascade leaves alone *)

Lemma IsGhost_nodes (st st' : State) (N : NodeId) :
  NodeObjs st' = NodeObjs st ->
  IsAutomaticallyPlacedGhostNode st' N = IsAutomaticallyPlacedGhostNode st N.
Proof. unfold IsAutomaticallyPlacedGhostNode. intros ->. reflexivity. Qed.

Lemma PinsOf_nodes (st st' : State) (N : NodeId) :
  NodeObjs st' = NodeObjs st -> PinsOf st' N = PinsOf st N.
Proof. unfold PinsOf. intros ->. reflexivity. Qed.

Lemma Cascaded_refl (st : State) : Cascaded st st.
Proof. constructor; auto. Qed.

Lemma Cascaded_trans (s1 s2 s3 : State) :
  Cascaded s1 s2 -> Cascaded s2 s3 -> Cascaded s1 s3.
Proof.
  intros [n1 o1 l1 c1 m1 g1 v1] [n2 o2 l2 c2 m2 g2 v2]. constructor.
  - congruence.
  - intros P. rewrite o2. apply o1.
  - auto.
  - lia.
  - intros G. rewrite m2. apply m1.
  - auto.
  - intros G N Hin Hlive. apply v2; [apply v1; assumption|].
    rewrite (IsGhost_nodes s1 s2) by assumption. exact Hlive.
Qed.

Lemma Cascaded_BreakLinkTo (a b : nat) (st : State) :
  Cascaded st (BreakLinkTo a b st).
Proof.
  constructor; auto.
  - intros P. apply GetOwningNode_BreakLinkTo.
  - intros P Q H. apply In_LinkedToOf_BreakLinkTo in H. tauto.
  - apply LinkCount_BreakLinkTo_le.
Qed.

Lemma NodesOf_RemoveNode (G G' : GraphId) (N : NodeId) (st : State) :
  NodesOf (RemoveNode G N st) G' =
  if decide (G = G') then RemoveAll N (NodesOf st G') else NodesOf st G'.
Proof.
  unfold NodesOf, RemoveNode, AlterGraph; simpl.
  destruct (decide (G = G')) as [->|Hne].
  - rewrite list_lookup_alter_eq. destruct (GraphObjs st !! G'); reflexivity.
  - rewrite list_lookup_alter_ne by assumption. reflexivity.
Qed.

Lemma GraphMeta_alter (f : list NodeId -> list NodeId) (G G' : GraphId)
    (Ns : list UEdGraphNode) (Ps : list UEdGraphPin) (st : State) :
  GraphMeta {| NodeObjs := Ns; PinObjs := Ps;
               GraphObjs := alter (WithNodes f) G (GraphObjs st) |} G' =
  GraphMeta st G'.
Proof.
  unfold GraphMeta; simpl.
  destruct (decide (G = G')) as [->|Hne].
  - rewrite list_lookup_alter_eq. destruct (GraphObjs st !! G'); reflexivity.
  - rewrite list_lookup_alter_ne by assumption. reflexivity.
Qed.

Lemma Cascaded_RemoveNode (G : GraphId) (N : NodeId) (st : State) :
  IsAutomaticallyPlacedGhostNode st N = true ->
  Cascaded st (RemoveNode G N st).
Proof.
  intros Hghost. constructor; auto.
  - intros G'. apply GraphMeta_alter.
  - intros G' M. rewrite NodesOf_RemoveNode.
    destruct (decide (G = G')); [rewrite In_RemoveAll; tauto|auto].
  - intros G' M Hin Hlive. rewrite NodesOf_RemoveNode.
    destruct (decide (G = G')); [|assumption].
    rewrite In_RemoveAll. split; [assumption|]. congruence.
Qed.

Create HintDb cascade.
#[local] Hint Resolve Cascaded_refl Cascaded_BreakLinkTo Cascaded_RemoveNode : cascade.
#[local] Hint Resolve casc_nodes : cascade.

Lemma RemoveGhostNodes_Cascaded (Fuel : nat) (InNode : option NodeId)
    (G : GraphId) (st st' : State) :
  RemoveGhostNodes Fuel InNode G st = Some st' -> Cascaded st st'.
Proof.
  apply (RemoveGhostNodes_rel Cascaded Cascaded_refl Cascaded_trans);
    auto with cascade.
Qed.

Lemma Visit_Cascaded (Fuel : nat) (G : GraphId) (Pin Other : PinId) (s s' : State) :
  Visit Fuel G Pin Other s = Some s' -> Cascaded s s'.
Proof.
  unfold Visit. intros H.
  eapply Cascaded_trans; [apply Cascaded_BreakLinkTo|].
  eapply RemoveGhostNodes_Cascaded, H.
Qed.

Lemma Visits_Cascaded (Fuel : nat) (G : GraphId) (Pin : PinId)
    (l : list PinId) (s s' : State) :
  ForEach (Visit Fuel G Pin) l s = Some s' -> Cascaded s s'.
Proof.
  apply (ForEach_rel Cascaded Cascaded_refl Cascaded_trans).
  intros x t t'. apply Visit_Cascaded.
Qed.

Lemma Sweeps_Cascaded (Fuel : nat) (G : GraphId) (l : list PinId) (s s' : State) :
  ForEach (Sweep Fuel G) l s = Some s' -> Cascaded s s'.
Proof.
  apply (ForEach_rel Cascaded Cascaded_refl Cascaded_trans).
  intros x t t'. apply Visits_Cascaded.
Qed.

(** ** Links stay held at both ends *)

Lemma LinksSymmetric_BreakLinkTo (a b : nat) (st : State) :
  LinksSymmetric st -> LinksSymmetric (BreakLinkTo a b st).
Proof.
  intros Hsym P Q. rewrite !In_LinkedToOf_BreakLinkTo.
  intros (Hin & H1 & H2). split; [apply Hsym, Hin|]. split; intros [-> ->]; tauto.
Qed.

Lemma RemoveGhostNodes_symmetric (Fuel : nat) (InNode : option NodeId)
    (G : GraphId) (st st' : State) :
  RemoveGhostNodes Fuel InNode G st = Some st' ->
  LinksSymmetric st -> LinksSymmetric st'.
Proof.
  intros H.
  apply (RemoveGhostNodes_rel
           (fun s s' => NodeObjs s' = NodeObjs s /\
                        (LinksSymmetric s -> LinksSymmetric s'))) in H.
  - tauto.
  - auto.
  - intros s1 s2 s3 [? ?] [? ?]. split; [congruence|auto].
  - tauto.
  - intros a b s. split; [reflexivity|apply LinksSymmetric_BreakLinkTo].
  - intros G' N s _. split; [reflexivity|]. intros Hs. exact Hs.
Qed.

(** ** Termination of the cascade *)

Section EnoughFuel.
Variable Fuel : nat.
Variable G : GraphId.
Hypothesis Calls : forall InNode st,
  LinkCount st < Fuel -> is_Some (RemoveGhostNodes Fuel InNode G st).

(** Once a link is gone, every later call has fuel to spare. *)
Lemma inner_loop_later (Pin : PinId) (l : list PinId) :
  forall s, LinkCount s < Fuel -> is_Some (ForEach (Visit Fuel G Pin) l s).
Proof.
  induction l as [|Other l IH]; intros s Hlt; simpl; [eauto|].
  destruct (Calls (GetOwningNode (BreakLinkTo Other Pin s) Other)
              (BreakLinkTo Other Pin s)) as [s1 Hs1].
  { pose proof (LinkCount_BreakLinkTo_le Other Pin s). lia. }
  change (Visit Fuel G Pin Other s) with
    (RemoveGhostNodes Fuel (GetOwningNode (BreakLinkTo Other Pin s) Other) G
       (BreakLinkTo Other Pin s)).
  rewrite Hs1. apply IH.
  pose proof (casc_count _ _ (RemoveGhostNodes_Cascaded _ _ _ _ _ Hs1)).
  pose proof (LinkCount_BreakLinkTo_le Other Pin s). lia.
Qed.

(** The first entry of a fresh copy is a live link: breaking it pays for
    the call that follows, and for all the later ones. *)
Lemma inner_loop_fresh (Pin : PinId) (s : State) :
  LinkCount s <= Fuel -> is_Some (Sweep Fuel G Pin s).
Proof.
  intros Hle. unfold Sweep.
  destruct (LinkedToOf s Pin) as [|Other l] eqn:Hcopy; simpl; [eauto|].
  assert (LinkCount (BreakLinkTo Other Pin s) < LinkCount s) as Hlt.
  { apply LinkCount_BreakLinkTo_lt. rewrite Hcopy. left. reflexivity. }
  destruct (Calls (GetOwningNode (BreakLinkTo Other Pin s) Other)
              (BreakLinkTo Other Pin s)) as [s1 Hs1]; [lia|].
  change (Visit Fuel G Pin Other s) with
    (RemoveGhostNodes Fuel (GetOwningNode (BreakLinkTo Other Pin s) Other) G
       (BreakLinkTo Other Pin s)).
  rewrite Hs1. apply inner_loop_later.
  pose proof (casc_count _ _ (RemoveGhostNodes_Cascaded _ _ _ _ _ Hs1)). lia.
Qed.

Lemma outer_loop_enough (l : list PinId) :
  forall s, LinkCount s <= Fuel -> is_Some (ForEach (Sweep Fuel G) l s).
Proof.
  induction l as [|Pin l IH]; intros s Hle; simpl; [eauto|].
  destruct (inner_loop_fresh Pin s Hle) as [s1 Hs1]. rewrite Hs1.
  apply IH. pose proof (casc_count _ _ (Visits_Cascaded _ _ _ _ _ _ Hs1)). lia.
Qed.
End EnoughFuel.

Lemma RemoveGhostNodes_enough_fuel (Fuel : nat) :
  forall InNode G st,
    LinkCount st < Fuel -> is_Some (RemoveGhostNodes Fuel InNode G st).
Proof.
  induction Fuel as [|Fuel IH]; intros InNode G st Hlt; [lia|].
  rewrite RemoveGhostNodes_unfold.
  destruct InNode as [N|]; [|eauto].
  destruct (IsAutomaticallyPlacedGhostNode st N); [|eauto].
  destruct (outer_loop_enough Fuel G (fun I s => IH I G s) (PinsOf st N) st)
    as [st1 Hst1]; [lia|].
  rewrite Hst1. eauto.
Qed.

Lemma RunRemoveGhostNodes_Some (InNode : option NodeId) (G : GraphId) (st : State) :
  RemoveGhostNodes (S (LinkCount st)) InNode G st
  = Some (RunRemoveGhostNodes InNode G st).
Proof.
  unfold RunRemoveGhostNodes.
  destruct (RemoveGhostNodes_enough_fuel (S (LinkCount st)) InNode G st) as [s Hs];
    [lia|].
  rewrite Hs. reflexivity.
Qed.

Lemma RunRemoveGhostNodes_Cascaded (InNode : option NodeId) (G : GraphId) (st : State) :
  Cascaded st (RunRemoveGhostNodes InNode G st).
Proof. eapply RemoveGhostNodes_Cascaded, RunRemoveGhostNodes_Some. Qed.

(** ** Well-formed pin tables *)

Lemma Mem_In (x : nat) (l : list nat) : Mem x l = true <-> In x l.
Proof.
  unfold Mem. rewrite existsb_exists. split.
  - intros (y & Hin & Heq). apply Nat.eqb_eq in Heq. congruence.
  - intros Hin. exists x. split; [assumption|apply Nat.eqb_refl].
Qed.

Lemma PinsOwnedb_sound (st : State) : PinsOwnedb st = true -> PinsOwned st.
Proof.
  unfold PinsOwnedb, PinsOwned. rewrite forallb_forall. intros H N P HP.
  assert (N < length (NodeObjs st)) as HN.
  { unfold PinsOf in HP. destruct (NodeObjs st !! N) eqn:E; [|destruct HP].
    eapply lookup_lt_Some, E. }
  specialize (H N). rewrite in_seq, forallb_forall in H.
  specialize (H ltac:(lia) P HP). apply bool_decide_eq_true in H. exact H.
Qed.

Lemma OwnedPinsListedb_sound (st : State) :
  OwnedPinsListedb st = true -> OwnedPinsListed st.
Proof.
  unfold OwnedPinsListedb, OwnedPinsListed. rewrite forallb_forall. intros H N P HP.
  assert (P < length (PinObjs st)) as HN.
  { unfold GetOwningNode in HP. destruct (PinObjs st !! P) eqn:E; [|discriminate].
    eapply lookup_lt_Some, E. }
  specialize (H P). rewrite in_seq in H. specialize (H ltac:(lia)).
  rewrite HP in H. apply Mem_In, H.
Qed.

Lemma LinksSymmetricb_sound (st : State) :
  LinksSymmetricb st = true -> LinksSymmetric st.
Proof.
  unfold LinksSymmetricb, LinksSymmetric. rewrite forallb_forall. intros H P Q HQ.
  assert (P < length (PinObjs st)) as HN.
  { unfold LinkedToOf in HQ. destruct (PinObjs st !! P) eqn:E; [|destruct HQ].
    eapply lookup_lt_Some, E. }
  specialize (H P). rewrite in_seq, forallb_forall in H.
  apply Mem_In, H; [lia|exact HQ].
Qed.

Lemma WellFormedPins_sound (st : State) :
  WellFormedPins st = true ->
  PinsOwned st /\ OwnedPinsListed st /\ LinksSymmetric st.
Proof.
  unfold WellFormedPins. rewrite !Bool.andb_true_iff. intros [[H1 H2] H3].
  auto using PinsOwnedb_sound, OwnedPinsListedb_sound, LinksSymmetricb_sound.
Qed.

Lemma PinsOwned_Cascaded (s s' : State) :
  Cascaded s s' -> PinsOwned s -> PinsOwned s'.
Proof.
  intros Hc H N P HP. rewrite (casc_owner _ _ Hc). apply H.
  rewrite <- (PinsOf_nodes s s') by apply Hc. exact HP.
Qed.

Lemma OwnedPinsListed_Cascaded (s s' : State) :
  Cascaded s s' -> OwnedPinsListed s -> OwnedPinsListed s'.
Proof.
  intros Hc H N P HP. rewrite (PinsOf_nodes s s') by apply Hc. apply H.
  rewrite <- (casc_owner _ _ Hc). exact HP.
Qed.

(** ** The cascade consumes every ghost it reaches *)

Lemma nil_no_In (l : list nat) : (forall x, ~ In x l) -> l = [].
Proof. destruct l as [|a l]; [reflexivity|]. intros H. destruct (H a). left. reflexivity. Qed.

Lemma Done_Cascaded (G : GraphId) (s s' : State) (Y : NodeId) :
  Cascaded s s' -> Done G s Y -> Done G s' Y.
Proof.
  intros Hc [Hout Hpins]. split.
  - intros Hin. apply Hout. eapply casc_graph; eassumption.
  - intros P HP. rewrite (PinsOf_nodes s s') in HP by apply Hc.
    apply nil_no_In. intros x Hx. apply (casc_links _ _ Hc) in Hx.
    rewrite (Hpins P HP) in Hx. exact Hx.
Qed.

Lemma Consumed_refl (G : GraphId) (Self : option NodeId) (st : State) :
  Consumed G Self st st.
Proof. intros P Q Y Hin Hnot. contradiction. Qed.

Lemma Consumed_step (G : GraphId) (Self : option NodeId) (st0 s s' : State) :
  Cascaded st0 s -> Cascaded s s' ->
  Consumed G Self st0 s -> Consumed G Self s s' -> Consumed G Self st0 s'.
Proof.
  intros H0 H1 C0 C1 P Q Y Hin Hnot Hown Hghost.
  destruct (in_dec Nat.eq_dec Q (LinkedToOf s P)) as [Hs|Hs].
  - apply (C1 P Q Y Hs Hnot).
    + rewrite (casc_owner _ _ H0). exact Hown.
    + rewrite (IsGhost_nodes st0 s) by apply H0. exact Hghost.
  - destruct (C0 P Q Y Hin Hs Hown Hghost) as [HD|HS]; [left|right; exact HS].
    eapply Done_Cascaded; eassumption.
Qed.

Lemma Retired_refl (G : GraphId) (st : State) : Retired G st st.
Proof. intros Y Hin Hnot. contradiction. Qed.

Lemma Retired_step (G : GraphId) (st0 s s' : State) :
  Cascaded s s' ->
  Retired G st0 s -> Retired G s s' -> Retired G st0 s'.
Proof.
  intros H1 R0 R1 Y Hin Hnot.
  destruct (in_dec Nat.eq_dec Y (NodesOf s G)) as [Hs|Hs].
  - apply (R1 Y Hs Hnot).
  - eapply Done_Cascaded; [eassumption|]. apply (R0 Y Hin Hs).
Qed.

(** After the inner loop has run over a copy [l] of the links of [Pin], no
    entry of [l] is left on [Pin]. *)
Lemma Visits_unlink (Fuel : nat) (G : GraphId) (Pin : PinId) (l : list PinId) :
  forall s s', ForEach (Visit Fuel G Pin) l s = Some s' ->
    forall Q, In Q (LinkedToOf s' Pin) -> In Q (LinkedToOf s Pin) /\ ~ In Q l.
Proof.
  induction l as [|Other l IH]; intros s s'; simpl.
  - intros [= <-] Q HQ. tauto.
  - destruct (Visit Fuel G Pin Other s) as [s1|] eqn:Hv; [|discriminate].
    intros Hrest Q HQ. destruct (IH s1 s' Hrest Q HQ) as [H1 Hl].
    unfold Visit in Hv.
    apply (casc_links _ _ (RemoveGhostNodes_Cascaded _ _ _ _ _ Hv)) in H1.
    apply In_LinkedToOf_BreakLinkTo in H1. destruct H1 as (Hin & Ha & Hb).
    split; [exact Hin|]. intros [->|HIn]; tauto.
Qed.

Lemma Sweep_empties (Fuel : nat) (G : GraphId) (Pin : PinId) (s s' : State) :
  Sweep Fuel G Pin s = Some s' -> LinkedToOf s' Pin = [].
Proof.
  unfold Sweep. intros H. apply nil_no_In. intros Q HQ.
  destruct (Visits_unlink _ _ _ _ _ _ H Q HQ) as [Hin Hnot]. contradiction.
Qed.

Lemma Sweeps_empty (Fuel : nat) (G : GraphId) (l : list PinId) :
  forall s s', ForEach (Sweep Fuel G) l s = Some s' ->
    forall P, In P l -> LinkedToOf s' P = [].
Proof.
  induction l as [|Pin l IH]; intros s s'; simpl; [intros _ P []|].
  destruct (Sweep Fuel G Pin s) as [s1|] eqn:Hs; [|discriminate].
  intros Hrest P [<-|HP]; [|eapply IH; eassumption].
  apply nil_no_In. intros Q HQ.
  apply (casc_links _ _ (Sweeps_Cascaded _ _ _ _ _ Hrest)) in HQ.
  rewrite (Sweep_empties _ _ _ _ _ Hs) in HQ. exact HQ.
Qed.

(** With every pin of the node already empty, [BreakAllNodeLinks] has
    nothing left to break. *)
Lemma BreakAllNodeLinks_idle (N : NodeId) (st : State) :
  (forall P, In P (PinsOf st N) -> LinkedToOf st P = []) ->
  BreakAllNodeLinks N st = st.
Proof.
  unfold BreakAllNodeLinks. generalize (PinsOf st N) as l.
  induction l as [|P l IH]; intros H; simpl; [reflexivity|].
  unfold BreakAllPinLinks at 2. rewrite (H P (or_introl eq_refl)). simpl.
  apply IH. intros Q HQ. apply H. right. exact HQ.
Qed.

Section Frame.
Variable Fuel : nat.
Variable G : GraphId.
Variable N : NodeId.
Hypothesis Calls : forall InNode st st',
  PinsOwned st ->
  RemoveGhostNodes Fuel InNode G st = Some st' ->
  Consumed G None st st' /\ Retired G st st' /\
  (forall M, InNode = Some M ->
     IsAutomaticallyPlacedGhostNode st M = true -> Done G st' M).

Lemma Visit_consumes (Pin Other : PinId) (s s' : State) :
  PinsOwned s -> In Pin (PinsOf s N) ->
  Visit Fuel G Pin Other s = Some s' ->
  Consumed G (Some N) s s' /\ Retired G s s'.
Proof.
  intros Hown HPin Hv. unfold Visit in Hv.
  pose proof (Cascaded_BreakLinkTo Other Pin s) as Hb.
  destruct (Calls _ _ _ (PinsOwned_Cascaded _ _ Hb Hown) Hv) as (HC & HR & HD).
  split; [|exact HR].
  intros P Q Y Hin Hnot HQ Hghost.
  destruct (in_dec Nat.eq_dec Q (LinkedToOf (BreakLinkTo Other Pin s) P)) as [Hs|Hs].
  - destruct (HC P Q Y Hs Hnot) as [HDone|Habs];
      [rewrite GetOwningNode_BreakLinkTo; exact HQ|exact Hghost| |discriminate].
    left. exact HDone.
  - rewrite In_LinkedToOf_BreakLinkTo in Hs.
    destruct (decide (P = Pin /\ Q = Other)) as [[-> ->]|Hne].
    + left. apply (HD Y); [|exact Hghost].
      rewrite GetOwningNode_BreakLinkTo. exact HQ.
    + destruct (decide (P = Other /\ Q = Pin)) as [[-> ->]|Hne']; [|tauto].
      right. rewrite <- HQ. symmetry. apply Hown, HPin.
Qed.

Lemma Visits_consume (Pin : PinId) (l : list PinId) :
  forall s s', PinsOwned s -> In Pin (PinsOf s N) ->
    ForEach (Visit Fuel G Pin) l s = Some s' ->
    Consumed G (Some N) s s' /\ Retired G s s'.
Proof.
  induction l as [|Other l IH]; intros s s' Hown HPin; simpl.
  - intros [= <-]. split; [apply Consumed_refl|apply Retired_refl].
  - destruct (Visit Fuel G Pin Other s) as [s1|] eqn:Hv; [|discriminate].
    intros Hrest. pose proof (Visit_Cascaded _ _ _ _ _ _ Hv) as Hc1.
    destruct (Visit_consumes _ _ _ _ Hown HPin Hv) as [C1 R1].
    destruct (IH s1 s') as [C2 R2];
      [eapply PinsOwned_Cascaded; eassumption
      |rewrite (PinsOf_nodes s s1) by apply Hc1; exact HPin
      |exact Hrest|].
    pose proof (Visits_Cascaded _ _ _ _ _ _ Hrest) as Hc2.
    split.
    + apply (Consumed_step G (Some N) s s1 s'); assumption.
    + apply (Retired_step G s s1 s'); assumption.
Qed.

Lemma Sweeps_consume (l : list PinId) :
  forall s s', PinsOwned s -> (forall P, In P l -> In P (PinsOf s N)) ->
    ForEach (Sweep Fuel G) l s = Some s' ->
    Consumed G (Some N) s s' /\ Retired G s s'.
Proof.
  induction l as [|Pin l IH]; intros s s' Hown Hl; simpl.
  - intros [= <-]. split; [apply Consumed_refl|apply Retired_refl].
  - destruct (Sweep Fuel G Pin s) as [s1|] eqn:Hs; [|discriminate].
    intros Hrest. pose proof (Visits_Cascaded _ _ _ _ _ _ Hs) as Hc1.
    destruct (Visits_consume Pin _ s s1 Hown (Hl Pin (or_introl eq_refl)) Hs)
      as [C1 R1].
    destruct (IH s1 s') as [C2 R2];
      [eapply PinsOwned_Cascaded; eassumption
      |intros P HP; rewrite (PinsOf_nodes s s1) by apply Hc1; apply Hl; right; exact HP
      |exact Hrest|].
    pose proof (Sweeps_Cascaded _ _ _ _ _ Hrest) as Hc2.
    split.
    + apply (Consumed_step G (Some N) s s1 s'); assumption.
    + apply (Retired_step G s s1 s'); assumption.
Qed.
End Frame.

Lemma RemoveGhostNodes_consumes (Fuel : nat) :
  forall InNode G st st',
    PinsOwned st ->
    RemoveGhostNodes Fuel InNode G st = Some st' ->
    Consumed G None st st' /\ Retired G st st' /\
    (forall M, InNode = Some M ->
       IsAutomaticallyPlacedGhostNode st M = true -> Done G st' M).
Proof.
  induction Fuel as [|Fuel IH]; intros InNode G st st' Hown; [discriminate|].
  rewrite RemoveGhostNodes_unfold.
  destruct InNode as [N|].
  2:{ intros [= <-]. split; [apply Consumed_refl|]. split; [apply Retired_refl|].
      discriminate. }
  destruct (IsAutomaticallyPlacedGhostNode st N) eqn:Hghost.
  2:{ intros [= <-]. split; [apply Consumed_refl|]. split; [apply Retired_refl|].
      intros M [= <-]. congruence. }
  destruct (ForEach (Sweep Fuel G) (PinsOf st N) st) as [st1|] eqn:Hloop;
    [|discriminate].
  intros [= <-].
  pose proof (Sweeps_Cascaded _ _ _ _ _ Hloop) as Hc1.
  destruct (Sweeps_consume Fuel G N (fun I s s' => IH I G s s')
              _ _ _ Hown (fun P HP => HP) Hloop) as [C1 R1].
  assert (forall P, In P (PinsOf st1 N) -> LinkedToOf st1 P = []) as Hempty.
  { intros P HP. rewrite (PinsOf_nodes st st1) in HP by apply Hc1.
    eapply Sweeps_empty; eassumption. }
  rewrite (BreakAllNodeLinks_idle N st1 Hempty).
  assert (IsAutomaticallyPlacedGhostNode st1 N = true) as Hghost1.
  { rewrite (IsGhost_nodes st st1) by apply Hc1. exact Hghost. }
  pose proof (Cascaded_RemoveNode G N st1 Hghost1) as Hc2.
  assert (Done G (RemoveNode G N st1) N) as HDone.
  { split.
    - rewrite NodesOf_RemoveNode. destruct (decide (G = G)); [|congruence].
      rewrite In_RemoveAll. tauto.
    - intros P HP. apply Hempty. exact HP. }
  split; [|split].
  - intros P Q Y Hin Hnot HQ HY.
    destruct (C1 P Q Y Hin Hnot HQ HY) as [HD|[= <-]]; left.
    + eapply Done_Cascaded; eassumption.
    + exact HDone.
  - eapply Retired_step; [exact Hc2|exact R1|].
    intros Y Hin Hnot. rewrite NodesOf_RemoveNode in Hnot.
    destruct (decide (G = G)); [|congruence].
    rewrite In_RemoveAll in Hnot.
    destruct (decide (Y = N)) as [->|Hne]; [exact HDone|tauto].
  - intros M [= <-] _. exact HDone.
Qed.

(** No pin holds a link to a pin of a node that is done with. *)
Lemma Done_no_dangling (G : GraphId) (st : State) (Y : NodeId) :
  OwnedPinsListed st -> LinksSymmetric st -> Done G st Y ->
  forall P Q, In Q (LinkedToOf st P) -> GetOwningNode st Q <> Some Y.
Proof.
  intros Hlisted Hsym [_ Hpins] P Q HQ Hown.
  apply Hsym in HQ. rewrite (Hpins Q (Hlisted _ _ Hown)) in HQ. exact HQ.
Qed.

(** ** [Invoke], step by step *)

Lemma FindPreExistingEvent_find (Sp : UBlueprintEventNodeSpawner) (st : State)
    (BP : UBlueprint) :
  FindPreExistingEvent Sp st (Some BP) =
  Ok (List.find (NodeHas st (MatchesIdentity Sp)) (GetAllEventNodes st BP)).
Proof.
  unfold FindPreExistingEvent, IsForCustomEvent, MatchesIdentity,
    FindCustomEventNode, FindOverrideForFunction.
  destruct (EventFunc Sp); reflexivity.
Qed.

(** The check of line 174 holds for every spawner. *)
Lemma identity_check_passes (Sp : UBlueprintEventNodeSpawner) :
  negb (IsForCustomEvent Sp || bool_decide (EventFunc Sp <> None)) = false.
Proof.
  unfold IsForCustomEvent. destruct (EventFunc Sp) as [F|]; reflexivity.
Qed.

Lemma SpawnNode_Spawned (Sp : UBlueprintEventNodeSpawner) (G : GraphId)
    (Location : Z * Z) (st : State) :
  SpawnNode (NodeClass Sp) G Location
    (Some (fun NewNode bIsTemplate =>
             PostSpawnLambda NewNode bIsTemplate (EventFunc Sp) (EventNameOf Sp)
               (CustomizeNodeDelegate Sp))) st
  = (length (NodeObjs st), Spawned Sp G Location st).
Proof. reflexivity. Qed.

Lemma Invoke_unfold (Sp : UBlueprintEventNodeSpawner) (G : GraphId)
    (Location : Z * Z) (st : State) (BP : UBlueprint) :
  FindBlueprintForGraphChecked st G = Ok BP ->
  Invoke Sp (Some G) Location st =
  match FocusOnFunctionGraph st (EventNameOf Sp) (FunctionGraphs BP) with
  | Some Result => Ok (Result, st)
  | None =>
      match (if IsTemplateOuter st G then None
             else List.find (NodeHas st (MatchesIdentity Sp)) (GetAllEventNodes st BP))
      with
      | Some N =>
          if IsAutomaticallyPlacedGhostNode st N then
            let st1 := RunRemoveGhostNodes (Some N) G st in
            Ok (Some (length (NodeObjs st1)), Spawned Sp G Location st1)
          else Ok (Some N, st)
      | None => Ok (Some (length (NodeObjs st)), Spawned Sp G Location st)
      end
  end.
Proof.
  intros HBP. unfold Invoke. rewrite HBP, FindPreExistingEvent_find.
  assert ((if negb (IsTemplateOuter st G)
           then Ok (List.find (NodeHas st (MatchesIdentity Sp)) (GetAllEventNodes st BP))
           else Ok None)
          = Ok (if IsTemplateOuter st G then None
                else List.find (NodeHas st (MatchesIdentity Sp)) (GetAllEventNodes st BP)))
    as -> by (destruct (IsTemplateOuter st G); reflexivity).
  rewrite identity_check_passes.
  destruct (FocusOnFunctionGraph st (EventNameOf Sp) (FunctionGraphs BP)); [reflexivity|].
  destruct (if IsTemplateOuter st G then None
            else List.find (NodeHas st (MatchesIdentity Sp)) (GetAllEventNodes st BP))
    as [N|]; [|rewrite SpawnNode_Spawned; reflexivity].
  destruct (IsAutomaticallyPlacedGhostNode st N);
    [rewrite SpawnNode_Spawned|]; reflexivity.
Qed.

(** *** The function-graph loop *)

Lemma FocusOnFunctionGraph_skip (st : State) (Name : FName)
    (Before Rest : list (option GraphId)) :
  (forall G Obj, In (Some G) Before -> GraphObjs st !! G = Some Obj ->
                 GraphFName Obj <> Name) ->
  FocusOnFunctionGraph st Name (Before ++ Rest) = FocusOnFunctionGraph st Name Rest.
Proof.
  induction Before as [|FG Before IH]; intros H; simpl; [reflexivity|].
  rewrite IH by (intros G Obj HG; apply H; right; exact HG).
  destruct FG as [G|]; simpl; [|reflexivity].
  destruct (GraphObjs st !! G) as [Obj|] eqn:E; [|reflexivity].
  rewrite bool_decide_eq_false_2; [reflexivity|].
  apply (H G Obj); [left; reflexivity|exact E].
Qed.

Lemma FocusOnFunctionGraph_hit (st : State) (Name : FName) (G : GraphId)
    (Obj : UEdGraph) (Rest : list (option GraphId)) :
  GraphObjs st !! G = Some Obj -> GraphFName Obj = Name ->
  FocusOnFunctionGraph st Name (Some G :: Rest)
  = Some (head (GetFunctionEntryNodes st Obj)).
Proof.
  intros E HN. simpl. rewrite E. rewrite bool_decide_eq_true_2 by exact HN.
  destruct (GetFunctionEntryNodes st Obj); reflexivity.
Qed.

Lemma FocusOnFunctionGraph_None_meta (st st' : State) (Name : FName)
    (l : list (option GraphId)) :
  (forall G, GraphMeta st' G = GraphMeta st G) ->
  FocusOnFunctionGraph st Name l = None ->
  FocusOnFunctionGraph st' Name l = None.
Proof.
  intros Hmeta. induction l as [|FG l IH]; simpl; [reflexivity|].
  destruct FG as [G|]; simpl; [|exact IH].
  specialize (Hmeta G). unfold GraphMeta in Hmeta.
  destruct (GraphObjs st !! G) as [Obj|], (GraphObjs st' !! G) as [Obj'|];
    try discriminate; [|exact IH].
  injection Hmeta as -> _ _.
  destruct (bool_decide (GraphFName Obj = Name)); [|exact IH].
  destruct (GetFunctionEntryNodes st Obj); discriminate.
Qed.

Lemma FindBlueprintForGraphChecked_meta (st st' : State) (G : GraphId) :
  GraphMeta st' G = GraphMeta st G ->
  FindBlueprintForGraphChecked st' G = FindBlueprintForGraphChecked st G.
Proof.
  unfold GraphMeta, FindBlueprintForGraphChecked.
  destruct (GraphObjs st !! G), (GraphObjs st' !! G); try discriminate; [|reflexivity].
  intros [= _ -> _]. reflexivity.
Qed.

Lemma IsTemplateOuter_meta (st st' : State) (G : GraphId) :
  GraphMeta st' G = GraphMeta st G ->
  IsTemplateOuter st' G = IsTemplateOuter st G.
Proof.
  unfold GraphMeta, IsTemplateOuter.
  destruct (GraphObjs st !! G), (GraphObjs st' !! G); try discriminate; [|reflexivity].
  intros [= _ _ ->]. reflexivity.
Qed.

(** *** The spawned node *)

Lemma ExecuteIfBound_keeps (Delegate : FCustomizeNodeDelegate)
    (Obj : UEdGraphNode) (b : bool) :
  KeepsIdentity Delegate ->
  NodeClassOf (ExecuteIfBound Delegate Obj b) = NodeClassOf Obj
  /\ bAutomaticallyPlacedGhost (ExecuteIfBound Delegate Obj b)
     = bAutomaticallyPlacedGhost Obj
  /\ EventReference (ExecuteIfBound Delegate Obj b) = EventReference Obj
  /\ bOverrideFunction (ExecuteIfBound Delegate Obj b) = bOverrideFunction Obj
  /\ CustomFunctionName (ExecuteIfBound Delegate Obj b) = CustomFunctionName Obj.
Proof.
  destruct Delegate as [f|]; simpl; [intros H; apply H|tauto].
Qed.

Lemma SpawnedNode_event (Sp : UBlueprintEventNodeSpawner) (b : bool) (Loc : Z * Z) :
  KeepsIdentity (CustomizeNodeDelegate Sp) ->
  IsEventNode (SpawnedNode Sp b Loc) = true.
Proof.
  intros H. unfold SpawnedNode, PostSpawnLambda, IsEventNode.
  destruct (ExecuteIfBound_keeps (CustomizeNodeDelegate Sp)
    (match EventFunc Sp with
     | Some F => WithEventReference (SetFromField F) (NewObject (NodeClass Sp) Loc)
     | None => if negb b
               then WithCustomFunctionName (EventNameOf Sp) (NewObject (NodeClass Sp) Loc)
               else NewObject (NodeClass Sp) Loc
     end) b H) as (-> & _).
  destruct (EventFunc Sp); [reflexivity|]. destruct b; reflexivity.
Qed.

Lemma SpawnedNode_live (Sp : UBlueprintEventNodeSpawner) (b : bool) (Loc : Z * Z) :
  KeepsIdentity (CustomizeNodeDelegate Sp) ->
  bAutomaticallyPlacedGhost (SpawnedNode Sp b Loc) = false.
Proof.
  intros H. unfold SpawnedNode, PostSpawnLambda.
  destruct (ExecuteIfBound_keeps (CustomizeNodeDelegate Sp)
    (match EventFunc Sp with
     | Some F => WithEventReference (SetFromField F) (NewObject (NodeClass Sp) Loc)
     | None => if negb b
               then WithCustomFunctionName (EventNameOf Sp) (NewObject (NodeClass Sp) Loc)
               else NewObject (NodeClass Sp) Loc
     end) b H) as (_ & -> & _).
  destruct (EventFunc Sp); [reflexivity|]. destruct b; reflexivity.
Qed.

Lemma SpawnedNode_matches (Sp : UBlueprintEventNodeSpawner) (Loc : Z * Z) :
  KeepsIdentity (CustomizeNodeDelegate Sp) ->
  MatchesIdentity Sp (SpawnedNode Sp false Loc) = true.
Proof.
  intros H. unfold SpawnedNode, PostSpawnLambda, MatchesIdentity, EventNameOf,
    IsCustomEventNamed, IsOverrideOf.
  destruct (ExecuteIfBound_keeps (CustomizeNodeDelegate Sp)
    (match EventFunc Sp with
     | Some F => WithEventReference (SetFromField F) (NewObject (NodeClass Sp) Loc)
     | None => if negb false
               then WithCustomFunctionName
                      (match EventFunc Sp with
                       | None => CustomEventName Sp
                       | Some F => GetFName F
                       end) (NewObject (NodeClass Sp) Loc)
               else NewObject (NodeClass Sp) Loc
     end) false H) as (_ & _ & HR & HO & HC).
  destruct (EventFunc Sp) as [F|]; simpl in *.
  - rewrite HO, HR. simpl. rewrite !bool_decide_eq_true_2; reflexivity.
  - rewrite HO, HC. simpl. rewrite bool_decide_eq_true_2; reflexivity.
Qed.

(** *** The state after a spawn *)

Lemma GraphMeta_Spawned (Sp : UBlueprintEventNodeSpawner) (G G' : GraphId)
    (Loc : Z * Z) (st : State) :
  GraphMeta (Spawned Sp G Loc st) G' = GraphMeta st G'.
Proof. unfold Spawned. apply GraphMeta_alter. Qed.

Lemma NodesOf_Spawned (Sp : UBlueprintEventNodeSpawner) (G : GraphId)
    (Loc : Z * Z) (st : State) (Obj : UEdGraph) :
  GraphObjs st !! G = Some Obj ->
  NodesOf (Spawned Sp G Loc st) G = NodesOf st G ++ [length (NodeObjs st)].
Proof.
  intros E. unfold NodesOf, Spawned; simpl.
  rewrite list_lookup_alter_eq, E. reflexivity.
Qed.

Lemma NodeHas_Spawned (Sp : UBlueprintEventNodeSpawner) (G : GraphId)
    (Loc : Z * Z) (st : State) (Pred : UEdGraphNode -> bool) (N : NodeId) :
  NodeHas (Spawned Sp G Loc st) Pred N =
  if decide (N = length (NodeObjs st))
  then Pred (SpawnedNode Sp (IsTemplateOuter st G) Loc)
  else NodeHas st Pred N.
Proof.
  unfold NodeHas, Spawned; simpl.
  destruct (decide (N = length (NodeObjs st))) as [->|Hne].
  - rewrite list_lookup_middle by reflexivity. reflexivity.
  - destruct (Nat.lt_ge_cases N (length (NodeObjs st))) as [Hlt|Hge].
    + rewrite lookup_app_l by exact Hlt. reflexivity.
    + rewrite (lookup_ge_None_2 (NodeObjs st)) by exact Hge.
      rewrite lookup_ge_None_2; [reflexivity|].
      rewrite length_app; simpl. lia.
Qed.

Lemma IsGhost_NodeHas (st : State) (N : NodeId) :
  IsAutomaticallyPlacedGhostNode st N = NodeHas st bAutomaticallyPlacedGhost N.
Proof. reflexivity. Qed.

(** *** Searching *)

Lemma find_filter {A : Type} (f e : A -> bool) (l : list A) :
  List.find f (List.filter e l) = List.find (fun x => e x && f x) l.
Proof.
  induction l as [|a l IH]; simpl; [reflexivity|].
  destruct (e a); simpl; [|exact IH]. destruct (f a); [reflexivity|exact IH].
Qed.

Lemma find_unique {A : Type} (f : A -> bool) (l : list A) (m : A) :
  In m l -> f m = true -> (forall x, In x l -> f x = true -> x = m) ->
  List.find f l = Some m.
Proof.
  induction l as [|a l IH]; simpl; [tauto|].
  intros Hin Hm Huniq. destruct (f a) eqn:E.
  - f_equal. apply Huniq; [left; reflexivity|exact E].
  - apply IH; [|exact Hm|intros x Hx; apply Huniq; right; exact Hx].
    destruct Hin as [->|Hin]; [congruence|exact Hin].
Qed.

Lemma filter_at_most_one {A : Type} (f : A -> bool) (l : list A) (x y : A) :
  length (List.filter f l) <= 1 ->
  In x l -> f x = true -> In y l -> f y = true -> x = y.
Proof.
  intros Hlen Hx Fx Hy Fy.
  assert (In x (List.filter f l)) as Ix by (apply filter_In; tauto).
  assert (In y (List.filter f l)) as Iy by (apply filter_In; tauto).
  destruct (List.filter f l) as [|a [|b r]]; simpl in *; [tauto| |lia].
  destruct Ix as [<-|[]], Iy as [<-|[]]. reflexivity.
Qed.

(** ** More fuel changes nothing *)

Lemma ForEach_mono {A : Type} (Body Body' : A -> State -> option State) :
  (forall x s s', Body x s = Some s' -> Body' x s = Some s') ->
  forall l s s', ForEach Body l s = Some s' -> ForEach Body' l s = Some s'.
Proof.
  intros HB l. induction l as [|x l IH]; intros s s'; simpl; [auto|].
  destruct (Body x s) as [s1|] eqn:E; [|discriminate].
  rewrite (HB _ _ _ E). apply IH.
Qed.

Lemma RemoveGhostNodes_more_fuel (Fuel : nat) :
  forall InNode G st st',
    RemoveGhostNodes Fuel InNode G st = Some st' ->
    RemoveGhostNodes (S Fuel) InNode G st = Some st'.
Proof.
  induction Fuel as [|Fuel IH]; intros InNode G st st'; [discriminate|].
  rewrite !(RemoveGhostNodes_unfold _ InNode).
  destruct InNode as [N|]; [|auto].
  destruct (IsAutomaticallyPlacedGhostNode st N); [|auto].
  destruct (ForEach (Sweep Fuel G) (PinsOf st N) st) as [st1|] eqn:Hloop;
    [|discriminate].
  intros [= <-].
  erewrite (ForEach_mono (Sweep Fuel G) (Sweep (S Fuel) G)); [reflexivity| |exact Hloop].
  intros Pin s s'. unfold Sweep. apply ForEach_mono.
  intros Other t t'. unfold Visit. apply IH.
Qed.

Lemma RemoveGhostNodes_extra_fuel (Extra Fuel : nat) :
  forall InNode G st st',
    RemoveGhostNodes Fuel InNode G st = Some st' ->
    RemoveGhostNodes (Fuel + Extra) InNode G st = Some st'.
Proof.
  induction Extra as [|Extra IH]; intros InNode G st st' H.
  - rewrite Nat.add_0_r. exact H.
  - rewrite Nat.add_succ_r. apply RemoveGhostNodes_more_fuel, IH, H.
Qed.

(** The node the cascade starts from, when a ghost, is out of the graph
    afterwards. *)
Lemma RunRemoveGhostNodes_removes (N : NodeId) (G : GraphId) (st : State) :
  IsAutomaticallyPlacedGhostNode st N = true ->
  ~ In N (NodesOf (RunRemoveGhostNodes (Some N) G st) G).
Proof.
  intros Hghost. pose proof (RunRemoveGhostNodes_Some (Some N) G st) as H.
  rewrite RemoveGhostNodes_unfold, Hghost in H.
  destruct (ForEach (Sweep (LinkCount st) G) (PinsOf st N) st) as [st1|];
    [|discriminate].
  injection H as <-. rewrite NodesOf_RemoveNode.
  destruct (decide (G = G)); [|congruence]. rewrite In_RemoveAll. tauto.
Qed.

(** Every ghost on a chain from the start node is done with when the
    cascade returns. *)
Lemma RunRemoveGhostNodes_chain (A Y : NodeId) (G : GraphId) (st : State) :
  PinsOwned st -> GhostChain st A Y ->
  Done G (RunRemoveGhostNodes (Some A) G st) Y.
Proof.
  intros Hown Hchain.
  pose proof (RunRemoveGhostNodes_Some (Some A) G st) as Hrun.
  pose proof (RemoveGhostNodes_Cascaded _ _ _ _ _ Hrun) as Hc.
  destruct (RemoveGhostNodes_consumes _ _ _ _ _ Hown Hrun) as (HCons & _ & HStart).
  induction Hchain as [HA|X Y P Q _ IH HP HQ HY HYg].
  - apply (HStart A eq_refl HA).
  - destruct (HCons P Q Y HQ) as [HD|?]; [|exact HY|exact HYg|exact HD|discriminate].
    rewrite (proj2 IH P); [intros []|].
    rewrite (PinsOf_nodes st) by apply Hc. exact HP.
Qed.

(** * The cascade: claims C5, C6 and C10 *)

(** C10. Termination of the ghost cascade: on every state, for every start
    node and graph, [RemoveGhostNodes] returns once its depth budget exceeds
    the number of link entries in the pin table, cycles of ghosts included; any
    larger budget gives the same result, and the result holds no more link
    entries than the start. Behind it: the first visit of every sweep breaks a
    link that is still there ([LinkCount_BreakLinkTo_lt]), so each nested call
    runs on fewer link entries than the call it is made from. *)
Theorem RemoveGhostNodes_terminates (InNode : option NodeId) (G : GraphId)
    (st : State) (Extra : nat) :
  RemoveGhostNodes (S (LinkCount st) + Extra) InNode G st
    = Some (RunRemoveGhostNodes InNode G st)
  /\ LinkCount (RunRemoveGhostNodes InNode G st) <= LinkCount st.
Proof.
  split.
  - apply RemoveGhostNodes_extra_fuel, RunRemoveGhostNodes_Some.
  - apply (casc_count _ _ (RunRemoveGhostNodes_Cascaded InNode G st)).
Qed.

(** A cycle of ghosts: the cascade started at node 0 of the triangle comes
    back to node 0 through nodes 1 and 2, finds its pin empty, and returns
    with the graph and the link table empty; a budget of four levels is
    enough, three are not. *)
Example RemoveGhostNodes_triangle :
  NodesOf (RunRemoveGhostNodes (Some 0) 0 Samples.TriangleState) 0 = []
  /\ LinkCount (RunRemoveGhostNodes (Some 0) 0 Samples.TriangleState) = 0
  /\ RemoveGhostNodes 4 (Some 0) 0 Samples.TriangleState
     = Some (RunRemoveGhostNodes (Some 0) 0 Samples.TriangleState)
  /\ RemoveGhostNodes 3 (Some 0) 0 Samples.TriangleState = None.
Proof. repeat split. Qed.

(** C6. Ghost-only deletion: whatever node the cascade starts from and
    whatever graph it is told to remove from, a node that is in a graph
    before the cascade and is not an automatically placed ghost is in that
    graph afterwards. *)
Theorem RemoveGhostNodes_keeps_live_nodes (InNode : option NodeId)
    (InParentGraph G : GraphId) (st : State) (N : NodeId) :
  In N (NodesOf st G) ->
  IsAutomaticallyPlacedGhostNode st N = false ->
  In N (NodesOf (RunRemoveGhostNodes InNode InParentGraph st) G).
Proof.
  apply (casc_live _ _ (RunRemoveGhostNodes_Cascaded InNode InParentGraph st)).
Qed.

Lemma RemoveGhostNodes_keeps_live_nodes_witness :
  In 3 (NodesOf (RunRemoveGhostNodes (Some 0) 0 Samples.ChainState) 0).
Proof.
  apply (RemoveGhostNodes_keeps_live_nodes (Some 0) 0 0 Samples.ChainState 3).
  - simpl. tauto.
  - reflexivity.
Defined.

(** C5. Cascade completeness: in a well-formed pin table, let [A], [B], [C]
    be ghosts of graph [G], a pin of [A] linked to a pin of [B] and a pin of
    [B] linked to a pin of [C]. The cascade started at [A] takes all three out
    of [G], and afterwards no pin anywhere holds a link to a pin of a node the
    cascade took out of [G]. *)
Theorem RemoveGhostNodes_cascade_complete (st : State) (G : GraphId)
    (A B C : NodeId) (PinA PinB PinB' PinC : PinId) :
  WellFormedPins st = true ->
  In A (NodesOf st G) -> In B (NodesOf st G) -> In C (NodesOf st G) ->
  IsAutomaticallyPlacedGhostNode st A = true ->
  IsAutomaticallyPlacedGhostNode st B = true ->
  IsAutomaticallyPlacedGhostNode st C = true ->
  In PinA (PinsOf st A) -> In PinB (LinkedToOf st PinA) ->
  GetOwningNode st PinB = Some B ->
  In PinB' (PinsOf st B) -> In PinC (LinkedToOf st PinB') ->
  GetOwningNode st PinC = Some C ->
  let st' := RunRemoveGhostNodes (Some A) G st in
  ~ In A (NodesOf st' G) /\ ~ In B (NodesOf st' G) /\ ~ In C (NodesOf st' G)
  /\ forall Y P Q,
       In Y (NodesOf st G) -> ~ In Y (NodesOf st' G) ->
       In Q (LinkedToOf st' P) -> GetOwningNode st' Q <> Some Y.
Proof.
  intros Hwf HA HB HC GA GB GC HPinA HLinkAB HOwnB HPinB' HLinkBC HOwnC st'.
  destruct (WellFormedPins_sound st Hwf) as (Hown & Hlisted & Hsym).
  pose proof (RunRemoveGhostNodes_Some (Some A) G st) as Hrun. fold st' in Hrun.
  pose proof (RemoveGhostNodes_Cascaded _ _ _ _ _ Hrun) as Hc.
  destruct (RemoveGhostNodes_consumes _ _ _ _ _ Hown Hrun) as (_ & HRet & _).
  assert (GhostChain st A B) as ChainB.
  { eapply chain_link; [apply chain_start, GA|eassumption..]. }
  assert (GhostChain st A C) as ChainC.
  { eapply chain_link; [exact ChainB|eassumption..]. }
  split; [apply (RunRemoveGhostNodes_chain A A G st Hown), chain_start, GA|].
  split; [apply (RunRemoveGhostNodes_chain A B G st Hown ChainB)|].
  split; [apply (RunRemoveGhostNodes_chain A C G st Hown ChainC)|].
  intros Y P Q HY HY'. apply (Done_no_dangling G).
  - eapply OwnedPinsListed_Cascaded; eassumption.
  - eapply RemoveGhostNodes_symmetric; eassumption.
  - apply HRet; assumption.
Qed.

Lemma RemoveGhostNodes_cascade_complete_witness :
  let st' := RunRemoveGhostNodes (Some 0) 0 Samples.ChainState in
  ~ In 0 (NodesOf st' 0) /\ ~ In 1 (NodesOf st' 0) /\ ~ In 2 (NodesOf st' 0)
  /\ forall Y P Q,
       In Y (NodesOf Samples.ChainState 0) -> ~ In Y (NodesOf st' 0) ->
       In Q (LinkedToOf st' P) -> GetOwningNode st' Q <> Some Y.
Proof.
  apply (RemoveGhostNodes_cascade_complete Samples.ChainState 0 0 1 2 0 1 2 3);
    try reflexivity; simpl; tauto.
Defined.

(** * The spawner: claims C2, C3, C7, C8 and C9 *)

Lemma FocusOnFunctionGraph_NoneNamed (st : State) (Name : FName)
    (Before Rest : list (option GraphId)) :
  NoneNamed st Name Before = true ->
  FocusOnFunctionGraph st Name (Before ++ Rest) = FocusOnFunctionGraph st Name Rest.
Proof.
  unfold NoneNamed. rewrite forallb_forall. intros H.
  apply FocusOnFunctionGraph_skip. intros G Obj HG E.
  specialize (H (Some G) HG). unfold NamedFunctionGraph in H. simpl in H.
  rewrite E in H. apply Bool.negb_true_iff, bool_decide_eq_false in H. exact H.
Qed.

(** C2. Function-name shadowing: when the function graph of the blueprint
    that carries the resolved event name (the first one in [FunctionGraphs],
    null entries skipped) has entry nodes, [Invoke] returns the first of them
    and leaves the state as it was, whatever event nodes the graphs hold. *)
Theorem Invoke_function_shadowing (Sp : UBlueprintEventNodeSpawner) (st : State)
    (ParentGraph : GraphId) (Location : Z * Z) (Blueprint : UBlueprint)
    (Before After : list (option GraphId)) (FuncGraph : GraphId)
    (Obj : UEdGraph) (Entry : NodeId) (Entries : list NodeId) :
  FindBlueprintForGraphChecked st ParentGraph = Ok Blueprint ->
  FunctionGraphs Blueprint = Before ++ Some FuncGraph :: After ->
  NoneNamed st (EventNameOf Sp) Before = true ->
  GraphObjs st !! FuncGraph = Some Obj ->
  GraphFName Obj = EventNameOf Sp ->
  GetFunctionEntryNodes st Obj = Entry :: Entries ->
  Invoke Sp (Some ParentGraph) Location st = Ok (Some Entry, st).
Proof.
  intros HBP HFG HBefore HObj HName HEntry.
  rewrite (Invoke_unfold _ _ _ _ _ HBP), HFG.
  rewrite (FocusOnFunctionGraph_NoneNamed _ _ _ _ HBefore).
  rewrite (FocusOnFunctionGraph_hit _ _ _ _ _ HObj HName), HEntry. reflexivity.
Qed.

Lemma Invoke_function_shadowing_witness :
  Invoke (CreateForCustomEvent 1 "Foo") (Some 0) (0, 0)%Z Samples.ShadowState
  = Ok (Some 1, Samples.ShadowState).
Proof.
  apply (Invoke_function_shadowing _ _ _ _ Samples.FooShadowed [None] [] 1
           {| GraphFName := "Foo"; Nodes := [1];
              OuterBlueprint := Some Samples.FooShadowed;
              bTemplateOuter := false |} 1 []);
    reflexivity.
Defined.

(** C3. Missing entry point: when the function graph of the blueprint that
    carries the resolved event name has no entry node, [Invoke] returns null,
    without a failed assertion and without touching the state: no node is
    spawned. *)
Theorem Invoke_missing_entry (Sp : UBlueprintEventNodeSpawner) (st : State)
    (ParentGraph : GraphId) (Location : Z * Z) (Blueprint : UBlueprint)
    (Before After : list (option GraphId)) (FuncGraph : GraphId)
    (Obj : UEdGraph) :
  FindBlueprintForGraphChecked st ParentGraph = Ok Blueprint ->
  FunctionGraphs Blueprint = Before ++ Some FuncGraph :: After ->
  NoneNamed st (EventNameOf Sp) Before = true ->
  GraphObjs st !! FuncGraph = Some Obj ->
  GraphFName Obj = EventNameOf Sp ->
  GetFunctionEntryNodes st Obj = [] ->
  Invoke Sp (Some ParentGraph) Location st = Ok (None, st).
Proof.
  intros HBP HFG HBefore HObj HName HEntry.
  rewrite (Invoke_unfold _ _ _ _ _ HBP), HFG.
  rewrite (FocusOnFunctionGraph_NoneNamed _ _ _ _ HBefore).
  rewrite (FocusOnFunctionGraph_hit _ _ _ _ _ HObj HName), HEntry. reflexivity.
Qed.

Lemma Invoke_missing_entry_witness :
  Invoke (CreateForCustomEvent 1 "Foo") (Some 0) (0, 0)%Z Samples.NoEntryState
  = Ok (None, Samples.NoEntryState).
Proof.
  apply (Invoke_missing_entry _ _ _ _ Samples.FooShadowed [None] [] 1
           {| GraphFName := "Foo"; Nodes := [];
              OuterBlueprint := Some Samples.FooShadowed;
              bTemplateOuter := false |});
    reflexivity.
Defined.

Lemma NodeHas_Some (st : State) (Pred : UEdGraphNode -> bool) (N : NodeId) :
  NodeHas st Pred N = true ->
  exists Obj, NodeObjs st !! N = Some Obj /\ Pred Obj = true.
Proof.
  unfold NodeHas. destruct (NodeObjs st !! N) as [Obj|]; [eauto|discriminate].
Qed.

(** C7. Custom against function-backed: in every state, whatever the names,
    the node found for an identity without function reference and the node
    found for an identity with one are different nodes. The first is an event
    node not flagged as an override whose custom name is the requested one;
    the second is an event node flagged as an override whose reference names
    the function and the authoritative class of its owner. *)
Theorem FindPreExistingEvent_disambiguates (st : State) (Blueprint : UBlueprint)
    (Custom Backed : UBlueprintEventNodeSpawner) (F : UFunction) (N M : NodeId) :
  EventFunc Custom = None ->
  EventFunc Backed = Some F ->
  FindPreExistingEvent Custom st (Some Blueprint) = Ok (Some N) ->
  FindPreExistingEvent Backed st (Some Blueprint) = Ok (Some M) ->
  N <> M
  /\ (exists Obj, NodeObjs st !! N = Some Obj
        /\ IsEventNode Obj = true
        /\ bOverrideFunction Obj = false
        /\ CustomFunctionName Obj = CustomEventName Custom)
  /\ (exists Obj, NodeObjs st !! M = Some Obj
        /\ IsEventNode Obj = true
        /\ bOverrideFunction Obj = true
        /\ MemberParent (EventReference Obj)
           = Some (GetAuthoritativeClass (GetOwnerClass F))
        /\ MemberName (EventReference Obj) = GetFName F).
Proof.
  intros HC HB. rewrite !FindPreExistingEvent_find.
  unfold MatchesIdentity. rewrite HC, HB.
  intros [= HN] [= HM].
  apply find_some in HN, HM. destruct HN as [HNin HN], HM as [HMin HM].
  unfold GetAllEventNodes in HNin, HMin. apply filter_In in HNin, HMin.
  destruct HNin as [_ HNe], HMin as [_ HMe].
  apply NodeHas_Some in HN, HM, HNe, HMe.
  destruct HN as (ObjN & EN & PN), HM as (ObjM & EM & PM).
  destruct HNe as (ObjN' & EN' & PNe), HMe as (ObjM' & EM' & PMe).
  assert (ObjN' = ObjN) as -> by congruence.
  assert (ObjM' = ObjM) as -> by congruence.
  unfold IsCustomEventNamed in PN. unfold IsOverrideOf in PM.
  rewrite Bool.andb_true_iff in PN. rewrite !Bool.andb_true_iff in PM.
  destruct PN as [PN1 PN2], PM as [[PM1 PM2] PM3].
  apply Bool.negb_true_iff in PN1.
  apply bool_decide_eq_true in PN2, PM2, PM3.
  split; [|split].
  - intros ->. congruence.
  - exists ObjN. auto.
  - exists ObjM. auto.
Qed.

Lemma FindPreExistingEvent_disambiguates_witness :
  0 <> 1
  /\ (exists Obj, NodeObjs Samples.JumpState !! 0 = Some Obj
        /\ IsEventNode Obj = true
        /\ bOverrideFunction Obj = false
        /\ CustomFunctionName Obj = "Jump")
  /\ (exists Obj, NodeObjs Samples.JumpState !! 1 = Some Obj
        /\ IsEventNode Obj = true
        /\ bOverrideFunction Obj = true
        /\ MemberParent (EventReference Obj) = Some 7
        /\ MemberName (EventReference Obj) = "Jump").
Proof.
  apply (FindPreExistingEvent_disambiguates Samples.JumpState Samples.EventGraphOnly
           (CreateForCustomEvent 1 "Jump") Samples.JumpSpawner Samples.JumpFunction 0 1);
    reflexivity.
Defined.

(** C8. Derived signature: a spawner with a function reference signs with
    its node class and the function object; a spawner without one and with a
    custom name signs with its node class and the pair of the key
    "CustomEvent" and the name. *)
Theorem GetSpawnerSignature_keys (Sp : UBlueprintEventNodeSpawner) :
  (forall F, EventFunc Sp = Some F ->
     GetSpawnerSignature Sp =
     {| SignatureClass := NodeClass Sp;
        SignatureEntries := [SubObject (Some F)] |})
  /\ (EventFunc Sp = None -> CustomEventName Sp <> NAME_None ->
      GetSpawnerSignature Sp =
      {| SignatureClass := NodeClass Sp;
         SignatureEntries := [NamedValue "CustomEvent" (CustomEventName Sp)] |}).
Proof.
  unfold GetSpawnerSignature, IsForCustomEvent, IsNone. split.
  - intros F ->. reflexivity.
  - intros -> Hname. rewrite bool_decide_eq_false_2 by exact Hname. reflexivity.
Qed.

Lemma GetSpawnerSignature_keys_witness :
  GetSpawnerSignature Samples.JumpSpawner =
    {| SignatureClass := 0;
       SignatureEntries := [SubObject (Some Samples.JumpFunction)] |}
  /\ GetSpawnerSignature (CreateForCustomEvent 1 "Jump") =
    {| SignatureClass := 1;
       SignatureEntries := [NamedValue "CustomEvent" "Jump"] |}.
Proof.
  split.
  - apply (proj1 (GetSpawnerSignature_keys Samples.JumpSpawner)). reflexivity.
  - apply (proj2 (GetSpawnerSignature_keys (CreateForCustomEvent 1 "Jump")));
      [reflexivity|discriminate].
Defined.

(** C9 as the code has it. A null graph stops [Invoke] at the assertion of
    line 160. The identity check of line 174 cannot fail: on a graph of a
    blueprint [Invoke] returns a result for every spawner, the one with
    neither function reference nor custom name included, which is served as
    an unnamed custom event. *)
Theorem Invoke_preconditions (Sp : UBlueprintEventNodeSpawner)
    (Location : Z * Z) (st : State) :
  Invoke Sp None Location st = AssertionFailed
  /\ (forall G Blueprint, FindBlueprintForGraphChecked st G = Ok Blueprint ->
        exists Result st', Invoke Sp (Some G) Location st = Ok (Result, st')).
Proof.
  split; [reflexivity|].
  intros G BP H. rewrite (Invoke_unfold _ _ _ _ _ H).
  destruct (FocusOnFunctionGraph st (EventNameOf Sp) (FunctionGraphs BP)); [eauto|].
  destruct (if IsTemplateOuter st G then None
            else List.find (NodeHas st (MatchesIdentity Sp)) (GetAllEventNodes st BP))
    as [N|]; [|eauto].
  destruct (IsAutomaticallyPlacedGhostNode st N); eauto.
Qed.

Lemma Invoke_preconditions_witness :
  exists Result st',
    Invoke (CreateForCustomEvent 1 NAME_None) (Some 0) (0, 0)%Z Samples.EmptyState
    = Ok (Result, st').
Proof.
  apply (proj2 (Invoke_preconditions (CreateForCustomEvent 1 NAME_None)
                  (0, 0)%Z Samples.EmptyState) 0 Samples.EventGraphOnly).
  reflexivity.
Defined.

(** C9 as stated fails: the spawner with no function reference and no custom
    name, invoked on an empty event graph, passes every assertion and spawns
    node 0. *)
Lemma Invoke_unset_identity_counterexample :
  EventFunc (CreateForCustomEvent 1 NAME_None) = None
  /\ IsNone (CustomEventName (CreateForCustomEvent 1 NAME_None)) = true
  /\ Invoke (CreateForCustomEvent 1 NAME_None) (Some 0) (0, 0)%Z Samples.EmptyState
     = Ok (Some 0,
           {| NodeObjs :=
                [ {| NodeClassOf := K2Node_Event 1; Pins := [];
                     bAutomaticallyPlacedGhost := false;
                     NodePosX := 0; NodePosY := 0;
                     EventReference := Samples.NoRef;
                     bOverrideFunction := false;
                     CustomFunctionName := NAME_None |} ];
              PinObjs := [];
              GraphObjs :=
                [ {| GraphFName := "EventGraph"; Nodes := [0];
                     OuterBlueprint := Some Samples.EventGraphOnly;
                     bTemplateOuter := false |} ] |}).
Proof. repeat split. Qed.

(** * The spawner: claims C1 and C4 *)

Lemma NodeHas_nodes (st st' : State) (Pred : UEdGraphNode -> bool) (N : NodeId) :
  NodeObjs st' = NodeObjs st -> NodeHas st' Pred N = NodeHas st Pred N.
Proof. unfold NodeHas. intros ->. reflexivity. Qed.

Lemma NodeHas_lt (st : State) (Pred : UEdGraphNode -> bool) (N : NodeId) :
  NodeHas st Pred N = true -> N < length (NodeObjs st).
Proof.
  intros H. apply NodeHas_Some in H. destruct H as (Obj & E & _).
  eapply lookup_lt_Some, E.
Qed.

Lemma FocusOnFunctionGraph_NoneNamed_all (st : State) (Name : FName)
    (Graphs : list (option GraphId)) :
  NoneNamed st Name Graphs = true -> FocusOnFunctionGraph st Name Graphs = None.
Proof.
  intros H. rewrite <- (app_nil_r Graphs).
  rewrite (FocusOnFunctionGraph_NoneNamed _ _ _ _ H). reflexivity.
Qed.

Lemma In_GetAllEventNodes (st : State) (BP : UBlueprint) (G : GraphId) (N : NodeId) :
  UbergraphPages BP = [G] ->
  In N (GetAllEventNodes st BP) <->
  In N (NodesOf st G) /\ NodeHas st IsEventNode N = true.
Proof.
  intros HP. unfold GetAllEventNodes. rewrite HP. simpl.
  rewrite app_nil_r. apply filter_In.
Qed.

Lemma FindBlueprintForGraphChecked_valid (st : State) (G : GraphId) (BP : UBlueprint) :
  FindBlueprintForGraphChecked st G = Ok BP ->
  exists Obj, GraphObjs st !! G = Some Obj.
Proof.
  unfold FindBlueprintForGraphChecked.
  destruct (GraphObjs st !! G) as [Obj|]; [eauto|discriminate].
Qed.

(** The spawned node is not a ghost in the state the spawn leaves. *)
Lemma Spawned_live (Sp : UBlueprintEventNodeSpawner) (G : GraphId)
    (Loc : Z * Z) (st : State) :
  KeepsIdentity (CustomizeNodeDelegate Sp) ->
  IsAutomaticallyPlacedGhostNode (Spawned Sp G Loc st) (length (NodeObjs st)) = false.
Proof.
  intros HK. rewrite IsGhost_NodeHas, NodeHas_Spawned.
  destruct (decide (length (NodeObjs st) = length (NodeObjs st))); [|congruence].
  apply SpawnedNode_live, HK.
Qed.

(** Once [Invoke] has spawned into a graph that held no matching event node,
    the next [Invoke] finds the spawned node and stops there. *)
Lemma Invoke_after_spawn (Sp : UBlueprintEventNodeSpawner) (G : GraphId)
    (Loc Loc' : Z * Z) (st : State) (BP : UBlueprint) :
  FindBlueprintForGraphChecked st G = Ok BP ->
  IsTemplateOuter st G = false ->
  UbergraphPages BP = [G] ->
  KeepsIdentity (CustomizeNodeDelegate Sp) ->
  FocusOnFunctionGraph st (EventNameOf Sp) (FunctionGraphs BP) = None ->
  (forall N, In N (NodesOf st G) -> NodeHas st IsEventNode N = true ->
             NodeHas st (MatchesIdentity Sp) N = false) ->
  Invoke Sp (Some G) Loc' (Spawned Sp G Loc st)
  = Ok (Some (length (NodeObjs st)), Spawned Sp G Loc st).
Proof.
  intros HBP HT HP HK HF Hnone.
  destruct (FindBlueprintForGraphChecked_valid _ _ _ HBP) as [Obj HObj].
  assert (FindBlueprintForGraphChecked (Spawned Sp G Loc st) G = Ok BP) as HBP'.
  { rewrite (FindBlueprintForGraphChecked_meta st); [exact HBP|].
    apply GraphMeta_Spawned. }
  rewrite (Invoke_unfold _ _ _ _ _ HBP').
  rewrite (FocusOnFunctionGraph_None_meta st _ _ _
             (fun G' => GraphMeta_Spawned Sp G G' Loc st) HF).
  rewrite (IsTemplateOuter_meta st) by apply GraphMeta_Spawned. rewrite HT.
  assert (List.find (NodeHas (Spawned Sp G Loc st) (MatchesIdentity Sp))
            (GetAllEventNodes (Spawned Sp G Loc st) BP)
          = Some (length (NodeObjs st))) as ->.
  { unfold GetAllEventNodes. rewrite HP. simpl. rewrite app_nil_r.
    rewrite find_filter, (NodesOf_Spawned _ _ _ _ _ HObj).
    apply find_unique.
    - apply in_or_app. right. left. reflexivity.
    - rewrite !NodeHas_Spawned.
      destruct (decide (length (NodeObjs st) = length (NodeObjs st))); [|congruence].
      rewrite HT, SpawnedNode_event, SpawnedNode_matches by exact HK. reflexivity.
    - intros x Hx Hfx. apply in_app_or in Hx.
      destruct Hx as [Hx|[<-|[]]]; [|reflexivity].
      rewrite !NodeHas_Spawned in Hfx.
      destruct (decide (x = length (NodeObjs st))) as [->|Hne]; [reflexivity|].
      apply Bool.andb_true_iff in Hfx. destruct Hfx as [He Hm].
      rewrite (Hnone x Hx He) in Hm. discriminate. }
  rewrite (Spawned_live _ _ _ _ HK). reflexivity.
Qed.

(** C1 as the code has it. On a graph that is not the outer of a node
    template, whose blueprint searches that graph alone and holds at most one
    node matching the identity, with a customization hook that keeps the
    identity of the node: [Invoke] returns a result, a second [Invoke] with
    the same spawner on the state the first one left returns the same result
    and leaves that state as it is; when no function graph carries the event
    name, the result is a node of the graph that is not a ghost. *)
Theorem Invoke_idempotent (Sp : UBlueprintEventNodeSpawner) (st : State)
    (G : GraphId) (Location Location' : Z * Z) (Blueprint : UBlueprint) :
  FindBlueprintForGraphChecked st G = Ok Blueprint ->
  IsTemplateOuter st G = false ->
  UbergraphPages Blueprint = [G] ->
  KeepsIdentity (CustomizeNodeDelegate Sp) ->
  MatchCount Sp st Blueprint <= 1 ->
  exists Result st1,
    Invoke Sp (Some G) Location st = Ok (Result, st1)
    /\ Invoke Sp (Some G) Location' st1 = Ok (Result, st1)
    /\ (NoneNamed st (EventNameOf Sp) (FunctionGraphs Blueprint) = true ->
        exists N, Result = Some N
          /\ In N (NodesOf st1 G)
          /\ IsAutomaticallyPlacedGhostNode st1 N = false).
Proof.
  intros HBP HT HP HK Hone.
  destruct (FindBlueprintForGraphChecked_valid _ _ _ HBP) as [Obj HObj].
  pose proof (Invoke_unfold Sp G Location st Blueprint HBP) as H1.
  pose proof (Invoke_unfold Sp G Location' st Blueprint HBP) as H1'.
  destruct (FocusOnFunctionGraph st (EventNameOf Sp) (FunctionGraphs Blueprint))
    as [Result|] eqn:HF.
  { exists Result, st. split; [exact H1|]. split; [exact H1'|].
    intros Hnn. rewrite (FocusOnFunctionGraph_NoneNamed_all _ _ _ Hnn) in HF.
    discriminate. }
  rewrite HT in H1, H1'.
  destruct (List.find (NodeHas st (MatchesIdentity Sp)) (GetAllEventNodes st Blueprint))
    as [N|] eqn:Hfind.
  - pose proof (find_some _ _ Hfind) as [HNin HNm].
    destruct (IsAutomaticallyPlacedGhostNode st N) eqn:Hghost.
    + (* a ghost: consumed, then a fresh node *)
      set (st1 := RunRemoveGhostNodes (Some N) G st) in *.
      pose proof (RunRemoveGhostNodes_Cascaded (Some N) G st) as Hc. fold st1 in Hc.
      assert (FindBlueprintForGraphChecked st1 G = Ok Blueprint) as HBP1.
      { rewrite (FindBlueprintForGraphChecked_meta st); [exact HBP|apply Hc]. }
      assert (IsTemplateOuter st1 G = false) as HT1.
      { rewrite (IsTemplateOuter_meta st); [exact HT|apply Hc]. }
      destruct (FindBlueprintForGraphChecked_valid _ _ _ HBP1) as [Obj1 HObj1].
      exists (Some (length (NodeObjs st1))), (Spawned Sp G Location st1).
      split; [exact H1|]. split.
      * apply (Invoke_after_spawn Sp G Location Location' st1 Blueprint);
          try assumption.
        -- apply (FocusOnFunctionGraph_None_meta st); [apply Hc|exact HF].
        -- intros x Hx He.
           destruct (NodeHas st1 (MatchesIdentity Sp) x) eqn:Hm; [|reflexivity].
           exfalso. rewrite (NodeHas_nodes st st1) in He, Hm by apply Hc.
           assert (x = N) as ->.
           { apply (filter_at_most_one (NodeHas st (MatchesIdentity Sp))
                      (GetAllEventNodes st Blueprint)); try assumption.
             apply (In_GetAllEventNodes st Blueprint G x HP).
             split; [apply (casc_graph _ _ Hc), Hx|exact He]. }
           apply (RunRemoveGhostNodes_removes N G st Hghost). exact Hx.
      * intros _. exists (length (NodeObjs st1)). split; [reflexivity|]. split.
        -- rewrite (NodesOf_Spawned _ _ _ _ _ HObj1). apply in_or_app.
           right. left. reflexivity.
        -- apply Spawned_live, HK.
    + (* a live node: returned as it is *)
      exists (Some N), st. split; [exact H1|]. split; [exact H1'|].
      intros _. exists N. split; [reflexivity|]. split; [|exact Hghost].
      apply (In_GetAllEventNodes st Blueprint G N HP). exact HNin.
  - (* nothing found: a fresh node *)
    exists (Some (length (NodeObjs st))), (Spawned Sp G Location st).
    split; [exact H1|]. split.
    + apply (Invoke_after_spawn Sp G Location Location' st Blueprint);
        try assumption.
      intros x Hx He.
      apply (find_none _ _ Hfind x).
      apply (In_GetAllEventNodes st Blueprint G x HP). split; assumption.
    + intros _. exists (length (NodeObjs st)). split; [reflexivity|]. split.
      * rewrite (NodesOf_Spawned _ _ _ _ _ HObj). apply in_or_app.
        right. left. reflexivity.
      * apply Spawned_live, HK.
Qed.

Lemma Invoke_idempotent_witness :
  exists Result st1,
    Invoke (CreateForCustomEvent 1 "Foo") (Some 0) (0, 0)%Z Samples.ChainState
      = Ok (Result, st1)
    /\ Invoke (CreateForCustomEvent 1 "Foo") (Some 0) (5, 5)%Z st1 = Ok (Result, st1)
    /\ exists N, Result = Some N
          /\ In N (NodesOf st1 0)
          /\ IsAutomaticallyPlacedGhostNode st1 N = false.
Proof.
  destruct (Invoke_idempotent (CreateForCustomEvent 1 "Foo") Samples.ChainState 0
              (0, 0)%Z (5, 5)%Z Samples.EventGraphOnly)
    as (Result & st1 & H1 & H2 & H3).
  - reflexivity.
  - reflexivity.
  - reflexivity.
  - exact I.
  - vm_compute. lia.
  - exists Result, st1. split; [exact H1|]. split; [exact H2|].
    apply H3. reflexivity.
Defined.

(** C1 as stated fails: on a graph that is the outer of a node template the
    lookup is skipped, and two calls in a row spawn node 0 and then node 1. *)
Lemma Invoke_template_counterexample :
  IsTemplateOuter Samples.TemplateState 0 = true
  /\ exists st1 st2,
       Invoke (CreateForCustomEvent 1 "Foo") (Some 0) (0, 0)%Z Samples.TemplateState
         = Ok (Some 0, st1)
       /\ Invoke (CreateForCustomEvent 1 "Foo") (Some 0) (0, 0)%Z st1 = Ok (Some 1, st2)
       /\ NodesOf st1 0 = [0] /\ NodesOf st2 0 = [0; 1].
Proof. split; [reflexivity|]. eexists. eexists. repeat split. Qed.

(** Why at most one match: with a ghost "Foo" ahead of a live "Foo" the
    first call consumes the ghost and spawns node 2, the second call finds
    the live node 1. *)
Example Invoke_two_matches :
  MatchCount (CreateForCustomEvent 1 "Foo") Samples.TwoFooState Samples.EventGraphOnly = 2
  /\ exists st1,
       Invoke (CreateForCustomEvent 1 "Foo") (Some 0) (0, 0)%Z Samples.TwoFooState
         = Ok (Some 2, st1)
       /\ Invoke (CreateForCustomEvent 1 "Foo") (Some 0) (0, 0)%Z st1 = Ok (Some 1, st1).
Proof. split; [reflexivity|]. eexists. split; reflexivity. Qed.

(** C4 as the code has it. Let no function graph of the blueprint carry the
    event name and let the customization hook keep the identity of the node.
    When the lookup, which [Invoke] runs on a graph that is no template
    outer, finds a node of the target graph and that node is a ghost,
    [Invoke] takes the ghost out of the graph and, in a pin table where the
    pins a node lists are owned by it, every ghost on a chain of links from
    it as well. It then returns a fresh node: an index that named no node
    object before and now names an event node of the spawner's identity that
    is no ghost and is listed in the graph. And every node [Invoke] returns
    names a node object that is not a ghost. *)
Theorem Invoke_ghost_override (Sp : UBlueprintEventNodeSpawner) (st : State)
    (G : GraphId) (Location : Z * Z) (Blueprint : UBlueprint) :
  FindBlueprintForGraphChecked st G = Ok Blueprint ->
  NoneNamed st (EventNameOf Sp) (FunctionGraphs Blueprint) = true ->
  KeepsIdentity (CustomizeNodeDelegate Sp) ->
  (forall Ghost,
     IsTemplateOuter st G = false ->
     FindPreExistingEvent Sp st (Some Blueprint) = Ok (Some Ghost) ->
     In Ghost (NodesOf st G) ->
     IsAutomaticallyPlacedGhostNode st Ghost = true ->
     exists st' Fresh,
       Invoke Sp (Some G) Location st = Ok (Some (length (NodeObjs st)), st')
       /\ ~ In Ghost (NodesOf st' G)
       /\ (PinsOwnedb st = true ->
           forall Y, GhostChain st Ghost Y -> ~ In Y (NodesOf st' G))
       /\ NodeObjs st !! length (NodeObjs st) = None
       /\ NodeObjs st' !! length (NodeObjs st) = Some Fresh
       /\ IsEventNode Fresh = true
       /\ bAutomaticallyPlacedGhost Fresh = false
       /\ MatchesIdentity Sp Fresh = true
       /\ In (length (NodeObjs st)) (NodesOf st' G))
  /\ (forall Result st',
        Invoke Sp (Some G) Location st = Ok (Some Result, st') ->
        IsAutomaticallyPlacedGhostNode st' Result = false
        /\ exists Obj, NodeObjs st' !! Result = Some Obj
                       /\ bAutomaticallyPlacedGhost Obj = false).
Proof.
  intros HBP Hnn HK.
  destruct (FindBlueprintForGraphChecked_valid _ _ _ HBP) as [Obj HObj].
  pose proof (Invoke_unfold Sp G Location st Blueprint HBP) as H1.
  rewrite (FocusOnFunctionGraph_NoneNamed_all _ _ _ Hnn) in H1.
  assert (forall s, exists Obj',
            NodeObjs (Spawned Sp G Location s) !! length (NodeObjs s) = Some Obj'
            /\ bAutomaticallyPlacedGhost Obj' = false) as Hnew.
  { intros s. exists (SpawnedNode Sp (IsTemplateOuter s G) Location). split.
    - unfold Spawned; simpl. apply list_lookup_middle. reflexivity.
    - apply SpawnedNode_live, HK. }
  split.
  - intros Ghost HT Hfind Hin Hghost.
    rewrite FindPreExistingEvent_find in Hfind. injection Hfind as Hfind.
    rewrite HT, Hfind, Hghost in H1. cbv zeta in H1.
    set (st1 := RunRemoveGhostNodes (Some Ghost) G st) in *.
    pose proof (RunRemoveGhostNodes_Some (Some Ghost) G st) as Hrun. fold st1 in Hrun.
    pose proof (RemoveGhostNodes_Cascaded _ _ _ _ _ Hrun) as Hc.
    assert (exists Obj1, GraphObjs st1 !! G = Some Obj1) as [Obj1 HObj1].
    { apply (FindBlueprintForGraphChecked_valid st1 G Blueprint).
      rewrite (FindBlueprintForGraphChecked_meta st); [exact HBP|apply Hc]. }
    assert (length (NodeObjs st1) = length (NodeObjs st)) as Hlen
      by (rewrite (casc_nodes _ _ Hc); reflexivity).
    assert (IsTemplateOuter st1 G = false) as HT1
      by (rewrite (IsTemplateOuter_meta st); [exact HT|apply Hc]).
    rewrite Hlen in H1.
    assert (forall Y, IsAutomaticallyPlacedGhostNode st Y = true ->
                      ~ In Y (NodesOf st1 G) ->
                      ~ In Y (NodesOf (Spawned Sp G Location st1) G)) as Hkeep.
    { intros Y HY HYout. rewrite (NodesOf_Spawned _ _ _ _ _ HObj1).
      intros HinY. apply in_app_or in HinY. destruct HinY as [HinY|[Heq|[]]]; [tauto|].
      rewrite IsGhost_NodeHas in HY. apply NodeHas_lt in HY. lia. }
    assert (forall Y, GhostChain st Ghost Y ->
                      IsAutomaticallyPlacedGhostNode st Y = true) as Hchain.
    { intros Y HY. destruct HY; assumption. }
    exists (Spawned Sp G Location st1), (SpawnedNode Sp false Location).
    split; [exact H1|].
    split; [|split; [|split; [|split; [|split; [|split; [|split]]]]]].
    + apply Hkeep; [exact Hghost|].
      apply (RunRemoveGhostNodes_removes Ghost G st Hghost).
    + intros Hown Y HY. apply Hkeep; [apply Hchain, HY|].
      apply (RunRemoveGhostNodes_chain Ghost Y G st (PinsOwnedb_sound _ Hown) HY).
    + apply lookup_ge_None_2. lia.
    + rewrite <- Hlen, <- HT1. unfold Spawned; simpl.
      apply list_lookup_middle. reflexivity.
    + apply SpawnedNode_event, HK.
    + apply SpawnedNode_live, HK.
    + apply SpawnedNode_matches, HK.
    + rewrite (NodesOf_Spawned _ _ _ _ _ HObj1), Hlen. apply in_or_app.
      right. left. reflexivity.
  - intros Result st'. rewrite H1.
    destruct (if IsTemplateOuter st G then None
              else List.find (NodeHas st (MatchesIdentity Sp)) (GetAllEventNodes st Blueprint))
      as [N|] eqn:Hfound.
    + destruct (IsAutomaticallyPlacedGhostNode st N) eqn:Hghost.
      * cbv zeta. intros [= <- <-]. split; [apply Spawned_live, HK|apply Hnew].
      * intros [= <- <-]. split; [exact Hghost|].
        destruct (IsTemplateOuter st G); [discriminate|].
        apply find_some in Hfound. destruct Hfound as [_ Hm].
        apply NodeHas_Some in Hm. destruct Hm as (ObjN & HN & _).
        exists ObjN. split; [exact HN|].
        unfold IsAutomaticallyPlacedGhostNode in Hghost.
        rewrite HN in Hghost. exact Hghost.
    + intros [= <- <-]. split; [apply Spawned_live, HK|apply Hnew].
Qed.

Lemma Invoke_ghost_override_witness :
  (exists st' Fresh,
     Invoke (CreateForCustomEvent 1 "Foo") (Some 0) (0, 0)%Z Samples.ChainState
       = Ok (Some 4, st')
     /\ ~ In 0 (NodesOf st' 0)
     /\ (forall Y, GhostChain Samples.ChainState 0 Y -> ~ In Y (NodesOf st' 0))
     /\ NodeObjs Samples.ChainState !! 4 = None
     /\ NodeObjs st' !! 4 = Some Fresh
     /\ IsEventNode Fresh = true
     /\ bAutomaticallyPlacedGhost Fresh = false
     /\ MatchesIdentity (CreateForCustomEvent 1 "Foo") Fresh = true
     /\ In 4 (NodesOf st' 0))
  /\ (IsAutomaticallyPlacedGhostNode
        (Spawned (CreateForCustomEvent 1 "Foo") 0 (0, 0)%Z
           (RunRemoveGhostNodes (Some 0) 0 Samples.ChainState)) 4 = false
      /\ exists Obj,
           NodeObjs
             (Spawned (CreateForCustomEvent 1 "Foo") 0 (0, 0)%Z
                (RunRemoveGhostNodes (Some 0) 0 Samples.ChainState)) !! 4 = Some Obj
           /\ bAutomaticallyPlacedGhost Obj = false).
Proof.
  split.
  - destruct (proj1 (Invoke_ghost_override (CreateForCustomEvent 1 "Foo")
                       Samples.ChainState 0 (0, 0)%Z Samples.EventGraphOnly
                       eq_refl eq_refl I) 0 eq_refl eq_refl (or_introl eq_refl) eq_refl)
      as (st' & Fresh & HI & HG & HC & HO & HF & HE & HL & HM & HN).
    exists st', Fresh.
    split; [exact HI|]. split; [exact HG|]. split; [exact (HC eq_refl)|].
    split; [exact HO|]. split; [exact HF|]. split; [exact HE|].
    split; [exact HL|]. split; [exact HM|exact HN].
  - apply (proj2 (Invoke_ghost_override (CreateForCustomEvent 1 "Foo")
                    Samples.ChainState 0 (0, 0)%Z Samples.EventGraphOnly
                    eq_refl eq_refl I) 4).
    reflexivity.
Defined.

(** C4 as stated fails: a ghost event "Foo" is what the lookup finds, yet
    with a function graph named "Foo" in the blueprint [Invoke] returns the
    entry node of that graph; the ghost stays and nothing is spawned. *)
Lemma Invoke_shadowed_ghost_counterexample :
  FindPreExistingEvent (CreateForCustomEvent 1 "Foo") Samples.ShadowState
    (Some Samples.FooShadowed) = Ok (Some 0)
  /\ IsAutomaticallyPlacedGhostNode Samples.ShadowState 0 = true
  /\ Invoke (CreateForCustomEvent 1 "Foo") (Some 0) (0, 0)%Z Samples.ShadowState
     = Ok (Some 1, Samples.ShadowState)
  /\ NodesOf Samples.ShadowState 0 = [0]
  /\ length (NodeObjs Samples.ShadowState) = 2.
Proof. repeat split. Qed.

(** The loop of lines 183-198 does not look at the enabled state of the
    entry node it returns. *)
Example Invoke_returns_entry_as_it_is :
  Invoke (CreateForCustomEvent 1 "Foo") (Some 0) (0, 0)%Z Samples.GhostEntryState
    = Ok (Some 1, Samples.GhostEntryState)
  /\ IsAutomaticallyPlacedGhostNode Samples.GhostEntryState 1 = true.
Proof. split; reflexivity. Qed.

(** * More on the cascade *)

Lemma RemovedOnChain_refl (st0 : State) (A : NodeId) (G : GraphId) (s : State) :
  RemovedOnChain st0 A G s s.
Proof.
  split; [|split]; [intros G' Y ? ?|intros P Q ? ?|intros G' ?];
    try contradiction; reflexivity.
Qed.

Lemma RemovedOnChain_trans (st0 : State) (A : NodeId) (G : GraphId)
    (s1 s2 s3 : State) :
  RemovedOnChain st0 A G s1 s2 -> RemovedOnChain st0 A G s2 s3 ->
  RemovedOnChain st0 A G s1 s3.
Proof.
  intros (N1 & L1 & F1) (N2 & L2 & F2). split; [|split].
  - intros G' Y HY Hnot.
    destruct (in_dec Nat.eq_dec Y (NodesOf s2 G')) as [Hin|Hout].
    + apply (N2 G' Y Hin Hnot).
    + apply (N1 G' Y HY Hout).
  - intros P Q HQ Hnot.
    destruct (in_dec Nat.eq_dec Q (LinkedToOf s2 P)) as [Hin|Hout].
    + apply (L2 P Q Hin Hnot).
    + apply (L1 P Q HQ Hout).
  - intros G' Hne. rewrite (F2 G' Hne). apply (F1 G' Hne).
Qed.

Lemma RemovedOnChain_BreakLinkTo (st0 : State) (A : NodeId) (G : GraphId)
    (Other Pin : PinId) (s : State) :
  OnChainPin st0 A Pin ->
  RemovedOnChain st0 A G s (BreakLinkTo Other Pin s).
Proof.
  intros HPin. split; [|split];
    [intros G' Y ? ?; contradiction| |intros G' ?; reflexivity].
  intros P Q HQ Hnot. rewrite In_LinkedToOf_BreakLinkTo in Hnot.
  destruct (decide (P = Pin)) as [->|HP]; [left; exact HPin|].
  destruct (decide (Q = Pin)) as [->|HQ']; [right; exact HPin|].
  exfalso. apply Hnot. split; [exact HQ|]. split; intros [? ?]; congruence.
Qed.

Lemma RemovedOnChain_RemoveNode (st0 : State) (A : NodeId) (G : GraphId)
    (N : NodeId) (s : State) :
  GhostChain st0 A N ->
  RemovedOnChain st0 A G s (RemoveNode G N s).
Proof.
  intros HN. split; [|split].
  - intros G' Y Hin Hnot. rewrite NodesOf_RemoveNode in Hnot.
    destruct (decide (G = G')) as [<-|Hne]; [|contradiction].
    split; [reflexivity|]. rewrite In_RemoveAll in Hnot.
    destruct (decide (Y = N)) as [->|HY]; [exact HN|tauto].
  - intros P Q HQ Hnot. contradiction.
  - intros G' Hne. rewrite NodesOf_RemoveNode.
    destruct (decide (G = G')); [congruence|reflexivity].
Qed.

Section OnChain.
Variable st0 : State.
Variable A : NodeId.
Variable G : GraphId.
Variable Fuel : nat.
Hypothesis Calls : forall InNode s s',
  Cascaded st0 s ->
  (forall N, InNode = Some N -> IsAutomaticallyPlacedGhostNode s N = true ->
             GhostChain st0 A N) ->
  RemoveGhostNodes Fuel InNode G s = Some s' ->
  RemovedOnChain st0 A G s s'.

Lemma Visits_on_chain (N : NodeId) (Pin : PinId) (l : list PinId) :
  GhostChain st0 A N -> In Pin (PinsOf st0 N) ->
  forall t t', Cascaded st0 t ->
    (forall Q, In Q l -> In Q (LinkedToOf st0 Pin)) ->
    ForEach (Visit Fuel G Pin) l t = Some t' ->
    RemovedOnChain st0 A G t t'.
Proof.
  intros HN HPin. induction l as [|Other l IH]; intros t t' Hc Hl; simpl.
  - intros [= <-]. apply RemovedOnChain_refl.
  - destruct (Visit Fuel G Pin Other t) as [t1|] eqn:Hv; [|discriminate].
    intros Hrest.
    pose proof (Cascaded_trans _ _ _ Hc (Cascaded_BreakLinkTo Other Pin t)) as Hcb.
    assert (RemovedOnChain st0 A G t t1) as H1.
    { eapply RemovedOnChain_trans.
      - apply (RemovedOnChain_BreakLinkTo st0 A G Other Pin t).
        exists N. split; assumption.
      - unfold Visit in Hv.
        apply (Calls (GetOwningNode (BreakLinkTo Other Pin t) Other)
                 (BreakLinkTo Other Pin t) t1 Hcb); [|exact Hv].
        intros Y HY HYg. apply (chain_link st0 A N Y Pin Other); try assumption.
        + apply Hl. left. reflexivity.
        + rewrite <- (casc_owner _ _ Hcb). exact HY.
        + rewrite <- (IsGhost_nodes st0 (BreakLinkTo Other Pin t)); [exact HYg|].
          apply Hcb. }
    eapply RemovedOnChain_trans; [exact H1|].
    apply (IH t1 t'); [|intros Q HQ; apply Hl; right; exact HQ|exact Hrest].
    eapply Cascaded_trans; [exact Hc|]. eapply Visit_Cascaded, Hv.
Qed.

Lemma Sweeps_on_chain (N : NodeId) (l : list PinId) :
  GhostChain st0 A N -> (forall P, In P l -> In P (PinsOf st0 N)) ->
  forall t t', Cascaded st0 t ->
    ForEach (Sweep Fuel G) l t = Some t' ->
    RemovedOnChain st0 A G t t'.
Proof.
  intros HN. induction l as [|Pin l IH]; intros Hl t t' Hc; simpl.
  - intros [= <-]. apply RemovedOnChain_refl.
  - destruct (Sweep Fuel G Pin t) as [t1|] eqn:Hs; [|discriminate].
    intros Hrest. eapply RemovedOnChain_trans.
    + apply (Visits_on_chain N Pin (LinkedToOf t Pin) HN
               (Hl Pin (or_introl eq_refl)) t t1 Hc); [|exact Hs].
      intros Q HQ. apply (casc_links _ _ Hc), HQ.
    + apply IH; [intros P HP; apply Hl; right; exact HP| |exact Hrest].
      eapply Cascaded_trans; [exact Hc|]. eapply Visits_Cascaded, Hs.
Qed.
End OnChain.

Lemma RemoveGhostNodes_on_chain (st0 : State) (A : NodeId) (G : GraphId)
    (Fuel : nat) :
  forall InNode s s',
    Cascaded st0 s ->
    (forall N, InNode = Some N -> IsAutomaticallyPlacedGhostNode s N = true ->
               GhostChain st0 A N) ->
    RemoveGhostNodes Fuel InNode G s = Some s' ->
    RemovedOnChain st0 A G s s'.
Proof.
  induction Fuel as [|Fuel IH]; intros InNode s s' Hc Hstart; [discriminate|].
  rewrite RemoveGhostNodes_unfold.
  destruct InNode as [N|]; [|intros [= <-]; apply RemovedOnChain_refl].
  destruct (IsAutomaticallyPlacedGhostNode s N) eqn:Hghost;
    [|intros [= <-]; apply RemovedOnChain_refl].
  destruct (ForEach (Sweep Fuel G) (PinsOf s N) s) as [s1|] eqn:Hloop;
    [|discriminate].
  intros [= <-]. pose proof (Hstart N eq_refl Hghost) as HN.
  pose proof (Sweeps_Cascaded _ _ _ _ _ Hloop) as Hc1.
  rewrite (BreakAllNodeLinks_idle N s1).
  - eapply RemovedOnChain_trans; [|apply RemovedOnChain_RemoveNode, HN].
    apply (Sweeps_on_chain st0 A G Fuel IH N (PinsOf s N) HN); [|exact Hc|exact Hloop].
    intros P HP. rewrite <- (PinsOf_nodes st0 s) by apply Hc. exact HP.
  - intros P HP. rewrite (PinsOf_nodes s s1) in HP by apply Hc1.
    eapply Sweeps_empty; eassumption.
Qed.

Lemma RunRemoveGhostNodes_on_chain (A : NodeId) (G : GraphId) (st : State) :
  RemovedOnChain st A G st (RunRemoveGhostNodes (Some A) G st).
Proof.
  apply (RemoveGhostNodes_on_chain st A G (S (LinkCount st)) (Some A)).
  - apply Cascaded_refl.
  - intros N [= <-] HN. apply chain_start, HN.
  - apply RunRemoveGhostNodes_Some.
Qed.

(** The start node, when a ghost, is done with afterwards, whatever the
    shape of the pin table. *)
Lemma RunRemoveGhostNodes_start_done (N : NodeId) (G : GraphId) (st : State) :
  IsAutomaticallyPlacedGhostNode st N = true ->
  Done G (RunRemoveGhostNodes (Some N) G st) N.
Proof.
  intros Hghost. pose proof (RunRemoveGhostNodes_Some (Some N) G st) as H.
  rewrite RemoveGhostNodes_unfold, Hghost in H.
  destruct (ForEach (Sweep (LinkCount st) G) (PinsOf st N) st) as [st1|] eqn:Hloop;
    [|discriminate].
  injection H as <-.
  pose proof (Sweeps_Cascaded _ _ _ _ _ Hloop) as Hc1.
  assert (forall P, In P (PinsOf st1 N) -> LinkedToOf st1 P = []) as Hempty.
  { intros P HP. rewrite (PinsOf_nodes st st1) in HP by apply Hc1.
    eapply Sweeps_empty; eassumption. }
  rewrite (BreakAllNodeLinks_idle N st1 Hempty). split.
  - rewrite NodesOf_RemoveNode. destruct (decide (G = G)); [|congruence].
    rewrite In_RemoveAll. tauto.
  - exact Hempty.
Qed.

(** *** Running the cascade again *)

Lemma alter_fixed {A : Type} (f : A -> A) (i : nat) (l : list A) :
  (forall x, l !! i = Some x -> f x = x) -> alter f i l = l.
Proof.
  revert i. induction l as [|a l IH]; intros [|i] H; simpl; try reflexivity.
  - f_equal. apply H. reflexivity.
  - f_equal. apply IH. intros x Hx. apply H. exact Hx.
Qed.

Lemma RemoveAll_absent (x : nat) (l : list nat) : ~ In x l -> RemoveAll x l = l.
Proof.
  induction l as [|a l IH]; simpl; [reflexivity|]. intros H.
  destruct (Nat.eqb_spec a x) as [->|Hne]; [tauto|]. simpl. f_equal.
  apply IH. tauto.
Qed.

Lemma RemoveNode_absent (G : GraphId) (N : NodeId) (st : State) :
  ~ In N (NodesOf st G) -> RemoveNode G N st = st.
Proof.
  intros H. unfold RemoveNode, AlterGraph. destruct st as [Ns Ps Gs]; simpl.
  f_equal. apply alter_fixed. intros Obj HObj.
  unfold NodesOf in H. simpl in H. rewrite HObj in H.
  destruct Obj as [Name Nds Outer Tmpl]; unfold WithNodes; simpl in *.
  rewrite (RemoveAll_absent N Nds H). reflexivity.
Qed.

Lemma Sweeps_idle (Fuel : nat) (G : GraphId) (l : list PinId) (s : State) :
  (forall P, In P l -> LinkedToOf s P = []) ->
  ForEach (Sweep Fuel G) l s = Some s.
Proof.
  induction l as [|Pin l IH]; intros H; simpl; [reflexivity|].
  unfold Sweep at 1. rewrite (H Pin (or_introl eq_refl)). simpl.
  apply IH. intros P HP. apply H. right. exact HP.
Qed.

Lemma RemoveGhostNodes_Done_idle (Fuel : nat) (N : NodeId) (G : GraphId) (s : State) :
  Done G s N -> RemoveGhostNodes (S Fuel) (Some N) G s = Some s.
Proof.
  intros [Hout Hpins]. rewrite RemoveGhostNodes_unfold.
  destruct (IsAutomaticallyPlacedGhostNode s N); [|reflexivity].
  rewrite (Sweeps_idle Fuel G (PinsOf s N) s Hpins).
  rewrite (BreakAllNodeLinks_idle N s Hpins), (RemoveNode_absent G N s Hout).
  reflexivity.
Qed.

Lemma RunRemoveGhostNodes_None (G : GraphId) (st : State) :
  RunRemoveGhostNodes None G st = st.
Proof. reflexivity. Qed.

Lemma RunRemoveGhostNodes_live (N : NodeId) (G : GraphId) (st : State) :
  IsAutomaticallyPlacedGhostNode st N = false ->
  RunRemoveGhostNodes (Some N) G st = st.
Proof.
  intros H. pose proof (RunRemoveGhostNodes_Some (Some N) G st) as Hrun.
  rewrite RemoveGhostNodes_unfold, H in Hrun. congruence.
Qed.

Lemma PinsOwnedb_complete (st : State) : PinsOwned st -> PinsOwnedb st = true.
Proof.
  intros H. unfold PinsOwnedb. apply forallb_forall. intros N _.
  apply forallb_forall. intros P HP. apply bool_decide_eq_true. apply H, HP.
Qed.

Lemma OwnedPinsListedb_complete (st : State) :
  OwnedPinsListed st -> OwnedPinsListedb st = true.
Proof.
  intros H. unfold OwnedPinsListedb. apply forallb_forall. intros P _.
  destruct (GetOwningNode st P) as [N|] eqn:E; [|reflexivity].
  apply Mem_In, H, E.
Qed.

Lemma LinksSymmetricb_complete (st : State) :
  LinksSymmetric st -> LinksSymmetricb st = true.
Proof.
  intros H. unfold LinksSymmetricb. apply forallb_forall. intros P _.
  apply forallb_forall. intros Q HQ. apply Mem_In, H, HQ.
Qed.

Lemma RunRemoveGhostNodes_other_graphs (InNode : option NodeId)
    (G G' : GraphId) (st : State) :
  G' <> G -> NodesOf (RunRemoveGhostNodes InNode G st) G' = NodesOf st G'.
Proof.
  destruct InNode as [A|]; [|reflexivity].
  destruct (RunRemoveGhostNodes_on_chain A G st) as (_ & _ & HF). apply HF.
Qed.

(** * The cascade: what it removes, what it keeps *)

(** X1. Only ghosts on a chain from the start node leave a graph, and only
    the graph handed to the cascade: a node that is in some graph before and
    not after is a ghost reached from the start node over links through
    ghosts, and the graph is [InParentGraph]; the node list of every other
    graph is what it was. *)
Theorem RemoveGhostNodes_removes_only_chain_ghosts (InNode : option NodeId)
    (InParentGraph : GraphId) (st : State) :
  (forall G Y,
     In Y (NodesOf st G) ->
     ~ In Y (NodesOf (RunRemoveGhostNodes InNode InParentGraph st) G) ->
     G = InParentGraph /\ exists A, InNode = Some A /\ GhostChain st A Y)
  /\ (forall G, G <> InParentGraph ->
        NodesOf (RunRemoveGhostNodes InNode InParentGraph st) G = NodesOf st G).
Proof.
  destruct InNode as [A|].
  - destruct (RunRemoveGhostNodes_on_chain A InParentGraph st) as (HN & _ & HF).
    split; [|exact HF].
    intros G Y HY Hnot. destruct (HN G Y HY Hnot) as [-> Hchain].
    split; [reflexivity|]. exists A. split; [reflexivity|exact Hchain].
  - rewrite RunRemoveGhostNodes_None. split; [|reflexivity].
    intros G Y HY Hnot. contradiction.
Qed.

Lemma RemoveGhostNodes_removes_only_chain_ghosts_witness :
  0 = 0 /\ exists A, Some 0 = Some A /\ GhostChain Samples.ChainState A 2.
Proof.
  apply (proj1 (RemoveGhostNodes_removes_only_chain_ghosts (Some 0) 0
                  Samples.ChainState) 0 2).
  - simpl. tauto.
  - vm_compute. intros [H|[]]. discriminate H.
Defined.

(** X2. What stays: with pins owned by the nodes that list them, the nodes
    of the parent graph after the cascade are the nodes it held before that
    are not ghosts on a chain from the start node. *)
Theorem RemoveGhostNodes_removes_exactly_chain_ghosts (A : NodeId)
    (G : GraphId) (st : State) (Y : NodeId) :
  PinsOwnedb st = true ->
  In Y (NodesOf (RunRemoveGhostNodes (Some A) G st) G)
  <-> In Y (NodesOf st G) /\ ~ GhostChain st A Y.
Proof.
  intros Hown. apply PinsOwnedb_sound in Hown. split.
  - intros HY. split.
    + apply (casc_graph _ _ (RunRemoveGhostNodes_Cascaded (Some A) G st)), HY.
    + intros Hchain.
      apply (proj1 (RunRemoveGhostNodes_chain A Y G st Hown Hchain)), HY.
  - intros [HY Hnot].
    destruct (in_dec Nat.eq_dec Y (NodesOf (RunRemoveGhostNodes (Some A) G st) G))
      as [Hin|Hout]; [exact Hin|].
    destruct (RunRemoveGhostNodes_on_chain A G st) as (HN & _).
    destruct (HN G Y HY Hout) as [_ Hchain]. contradiction.
Qed.

Lemma RemoveGhostNodes_removes_exactly_chain_ghosts_witness :
  In 3 (NodesOf (RunRemoveGhostNodes (Some 0) 0 MoreSamples.MixedState) 0)
  <-> In 3 (NodesOf MoreSamples.MixedState 0)
      /\ ~ GhostChain MoreSamples.MixedState 0 3.
Proof.
  apply (RemoveGhostNodes_removes_exactly_chain_ghosts 0 0 MoreSamples.MixedState 3).
  reflexivity.
Defined.

(** X3. Links the cascade has no business with stay: a link entry that is
    there before the cascade and gone after it had one of its two ends on a
    pin of a ghost on a chain from the start node. *)
Theorem RemoveGhostNodes_breaks_only_chain_links (A : NodeId) (G : GraphId)
    (st : State) (P Q : PinId) :
  In Q (LinkedToOf st P) ->
  ~ In Q (LinkedToOf (RunRemoveGhostNodes (Some A) G st) P) ->
  OnChainPin st A P \/ OnChainPin st A Q.
Proof.
  destruct (RunRemoveGhostNodes_on_chain A G st) as (_ & HL & _). apply HL.
Qed.

Lemma RemoveGhostNodes_breaks_only_chain_links_witness :
  OnChainPin Samples.ChainState 0 5 \/ OnChainPin Samples.ChainState 0 4.
Proof.
  apply (RemoveGhostNodes_breaks_only_chain_links 0 0 Samples.ChainState 5 4).
  - simpl. tauto.
  - vm_compute. intros [].
Defined.

(** X4. Running the cascade a second time from the same node changes
    nothing. *)
Theorem RemoveGhostNodes_twice (InNode : option NodeId) (G : GraphId) (st : State) :
  RunRemoveGhostNodes InNode G (RunRemoveGhostNodes InNode G st)
  = RunRemoveGhostNodes InNode G st.
Proof.
  destruct InNode as [N|]; [|reflexivity].
  destruct (IsAutomaticallyPlacedGhostNode st N) eqn:Hghost.
  - pose proof (RunRemoveGhostNodes_start_done N G st Hghost) as HDone.
    pose proof (RunRemoveGhostNodes_Some (Some N) G
                  (RunRemoveGhostNodes (Some N) G st)) as Hrun.
    rewrite (RemoveGhostNodes_Done_idle _ N G _ HDone) in Hrun. congruence.
  - rewrite (RunRemoveGhostNodes_live N G st Hghost).
    apply (RunRemoveGhostNodes_live N G st Hghost).
Qed.

(** X5. The cascade keeps the pin table well formed: when every pin listed
    by a node is owned by it, every owned pin is listed by its owner and
    every link is held at both ends, the same holds afterwards. *)
Theorem RemoveGhostNodes_keeps_pins_well_formed (InNode : option NodeId)
    (G : GraphId) (st : State) :
  WellFormedPins st = true ->
  WellFormedPins (RunRemoveGhostNodes InNode G st) = true.
Proof.
  intros Hwf. destruct (WellFormedPins_sound st Hwf) as (Hown & Hlisted & Hsym).
  pose proof (RunRemoveGhostNodes_Some InNode G st) as Hrun.
  pose proof (RemoveGhostNodes_Cascaded _ _ _ _ _ Hrun) as Hc.
  unfold WellFormedPins. rewrite !Bool.andb_true_iff. split; [split|].
  - apply PinsOwnedb_complete. eapply PinsOwned_Cascaded; eassumption.
  - apply OwnedPinsListedb_complete. eapply OwnedPinsListed_Cascaded; eassumption.
  - apply LinksSymmetricb_complete. eapply RemoveGhostNodes_symmetric; eassumption.
Qed.

Lemma RemoveGhostNodes_keeps_pins_well_formed_witness :
  WellFormedPins (RunRemoveGhostNodes (Some 0) 0 Samples.TriangleState) = true.
Proof.
  apply (RemoveGhostNodes_keeps_pins_well_formed (Some 0) 0 Samples.TriangleState).
  reflexivity.
Defined.

(** X6. No dangling links, whatever the start: in a well-formed pin table,
    after the cascade no pin holds a link to a pin of a node that the cascade
    took out of the parent graph. *)
Theorem RemoveGhostNodes_leaves_no_dangling_link (InNode : option NodeId)
    (G : GraphId) (st : State) (Y : NodeId) (P Q : PinId) :
  WellFormedPins st = true ->
  In Y (NodesOf st G) ->
  ~ In Y (NodesOf (RunRemoveGhostNodes InNode G st) G) ->
  In Q (LinkedToOf (RunRemoveGhostNodes InNode G st) P) ->
  GetOwningNode (RunRemoveGhostNodes InNode G st) Q <> Some Y.
Proof.
  intros Hwf HY Hout. destruct (WellFormedPins_sound st Hwf) as (Hown & Hlisted & Hsym).
  pose proof (RunRemoveGhostNodes_Some InNode G st) as Hrun.
  pose proof (RemoveGhostNodes_Cascaded _ _ _ _ _ Hrun) as Hc.
  destruct (RemoveGhostNodes_consumes _ _ _ _ _ Hown Hrun) as (_ & HRet & _).
  apply (Done_no_dangling G).
  - eapply OwnedPinsListed_Cascaded; eassumption.
  - eapply RemoveGhostNodes_symmetric; eassumption.
  - apply HRet; assumption.
Qed.

Lemma RemoveGhostNodes_leaves_no_dangling_link_witness :
  GetOwningNode (RunRemoveGhostNodes (Some 0) 0 MoreSamples.MixedState) 3 <> Some 0.
Proof.
  apply (RemoveGhostNodes_leaves_no_dangling_link (Some 0) 0
           MoreSamples.MixedState 0 2 3).
  - reflexivity.
  - simpl. tauto.
  - vm_compute. intros [H|[H|[H|[]]]]; discriminate H.
  - vm_compute. tauto.
Defined.

(** The ghost behind the two live nodes of the mixed sample is still in the
    graph after the cascade, with its link. *)
Example RemoveGhostNodes_stops_at_live_nodes :
  NodesOf (RunRemoveGhostNodes (Some 0) 0 MoreSamples.MixedState) 0 = [1; 2; 3]
  /\ LinkedToOf (RunRemoveGhostNodes (Some 0) 0 MoreSamples.MixedState) 4 = [5]
  /\ LinkedToOf (RunRemoveGhostNodes (Some 0) 0 MoreSamples.MixedState) 1 = [].
Proof. repeat split. Qed.

(** * More on [Invoke] *)

Lemma NodeObjs_Spawned_old (Sp : UBlueprintEventNodeSpawner) (G : GraphId)
    (Loc : Z * Z) (st : State) (N : NodeId) (Obj : UEdGraphNode) :
  NodeObjs st !! N = Some Obj -> NodeObjs (Spawned Sp G Loc st) !! N = Some Obj.
Proof. intros H. unfold Spawned; simpl. apply lookup_app_l_Some, H. Qed.

Lemma NodeObjs_Spawned_new (Sp : UBlueprintEventNodeSpawner) (G : GraphId)
    (Loc : Z * Z) (st : State) :
  NodeObjs (Spawned Sp G Loc st) !! length (NodeObjs st)
  = Some (SpawnedNode Sp (IsTemplateOuter st G) Loc).
Proof. unfold Spawned; simpl. apply list_lookup_middle. reflexivity. Qed.

Lemma NodesOf_Spawned_other (Sp : UBlueprintEventNodeSpawner) (G G' : GraphId)
    (Loc : Z * Z) (st : State) :
  G' <> G -> NodesOf (Spawned Sp G Loc st) G' = NodesOf st G'.
Proof.
  intros Hne. unfold NodesOf, Spawned; simpl.
  rewrite list_lookup_alter_ne by congruence. reflexivity.
Qed.

Lemma NodesOf_Spawned_incl (Sp : UBlueprintEventNodeSpawner) (G G' : GraphId)
    (Loc : Z * Z) (st : State) (N : NodeId) :
  In N (NodesOf st G') -> In N (NodesOf (Spawned Sp G Loc st) G').
Proof.
  destruct (decide (G' = G)) as [->|Hne].
  - unfold NodesOf, Spawned; simpl. rewrite list_lookup_alter_eq.
    destruct (GraphObjs st !! G); simpl; [|tauto].
    intros H. apply in_or_app. left. exact H.
  - rewrite NodesOf_Spawned_other by exact Hne. tauto.
Qed.

Lemma Invoke_Ok_graph (Sp : UBlueprintEventNodeSpawner)
    (ParentGraph : option GraphId) (Loc : Z * Z) (st st' : State)
    (Result : option NodeId) :
  Invoke Sp ParentGraph Loc st = Ok (Result, st') ->
  exists G BP, ParentGraph = Some G /\ FindBlueprintForGraphChecked st G = Ok BP.
Proof.
  destruct ParentGraph as [G|]; [|discriminate]. unfold Invoke.
  destruct (FindBlueprintForGraphChecked st G) as [BP|] eqn:E; [|discriminate].
  intros _. exists G, BP. split; [reflexivity|exact E].
Qed.

(** The three ways [Invoke] comes to a result: the function-graph loop
    returned; the node found is live and returned; a node is spawned, into
    the state as it was or as the cascade left it. *)
Lemma Invoke_inv (Sp : UBlueprintEventNodeSpawner) (G : GraphId) (Loc : Z * Z)
    (st st' : State) (BP : UBlueprint) (Result : option NodeId) :
  FindBlueprintForGraphChecked st G = Ok BP ->
  Invoke Sp (Some G) Loc st = Ok (Result, st') ->
  (FocusOnFunctionGraph st (EventNameOf Sp) (FunctionGraphs BP) = Some Result
   /\ st' = st)
  \/ (FocusOnFunctionGraph st (EventNameOf Sp) (FunctionGraphs BP) = None
      /\ exists N, Result = Some N /\ st' = st
         /\ In N (GetAllEventNodes st BP)
         /\ NodeHas st (MatchesIdentity Sp) N = true
         /\ IsAutomaticallyPlacedGhostNode st N = false)
  \/ (FocusOnFunctionGraph st (EventNameOf Sp) (FunctionGraphs BP) = None
      /\ exists InNode,
           Result = Some (length (NodeObjs st))
           /\ st' = Spawned Sp G Loc (RunRemoveGhostNodes InNode G st)).
Proof.
  intros HBP. rewrite (Invoke_unfold _ _ _ _ _ HBP).
  destruct (FocusOnFunctionGraph st (EventNameOf Sp) (FunctionGraphs BP)) as [R|].
  { intros [= <- <-]. left. split; reflexivity. }
  destruct (if IsTemplateOuter st G then None
            else List.find (NodeHas st (MatchesIdentity Sp)) (GetAllEventNodes st BP))
    as [N|] eqn:Hfind.
  - destruct (IsAutomaticallyPlacedGhostNode st N) eqn:Hghost.
    + cbv zeta. intros [= <- <-]. right. right. split; [reflexivity|].
      exists (Some N). split; [|reflexivity].
      rewrite (casc_nodes _ _ (RunRemoveGhostNodes_Cascaded (Some N) G st)).
      reflexivity.
    + intros [= <- <-]. right. left. split; [reflexivity|].
      destruct (IsTemplateOuter st G); [discriminate|].
      apply find_some in Hfind. exists N. tauto.
  - intros [= <- <-]. right. right. split; [reflexivity|]. exists None.
    rewrite RunRemoveGhostNodes_None. split; reflexivity.
Qed.

(** * [Invoke]: what it leaves alone *)

(** X7. The footprint of [Invoke]: a call that returns leaves every node
    object of the table as it was and adds at most one; it leaves the name,
    blueprint and template mark of every graph, the node list of every graph
    other than the parent graph and the owner of every pin as they were; and
    it adds no link. *)
Theorem Invoke_footprint (Sp : UBlueprintEventNodeSpawner)
    (ParentGraph : option GraphId) (Location : Z * Z) (st st' : State)
    (Result : option NodeId) :
  Invoke Sp ParentGraph Location st = Ok (Result, st') ->
  (forall N Obj, NodeObjs st !! N = Some Obj -> NodeObjs st' !! N = Some Obj)
  /\ length (NodeObjs st') <= S (length (NodeObjs st))
  /\ (forall G, GraphMeta st' G = GraphMeta st G)
  /\ (forall G, Some G <> ParentGraph -> NodesOf st' G = NodesOf st G)
  /\ (forall P, GetOwningNode st' P = GetOwningNode st P)
  /\ (forall P Q, In Q (LinkedToOf st' P) -> In Q (LinkedToOf st P)).
Proof.
  intros H. destruct (Invoke_Ok_graph _ _ _ _ _ _ H) as (G & BP & -> & HBP).
  destruct (Invoke_inv _ _ _ _ _ _ _ HBP H)
    as [[_ ->]|[(_ & N & _ & -> & _)|(_ & InNode & _ & ->)]].
  1,2: repeat split; auto.
  pose proof (RunRemoveGhostNodes_Cascaded InNode G st) as Hc.
  set (s1 := RunRemoveGhostNodes InNode G st) in *.
  split; [|split; [|split; [|split; [|split]]]].
  - intros N Obj HN. apply NodeObjs_Spawned_old.
    rewrite (casc_nodes _ _ Hc). exact HN.
  - unfold Spawned; simpl. rewrite length_app, (casc_nodes _ _ Hc). simpl. lia.
  - intros G'. rewrite GraphMeta_Spawned. apply (casc_meta _ _ Hc).
  - intros G' Hne. rewrite NodesOf_Spawned_other by congruence.
    apply RunRemoveGhostNodes_other_graphs. congruence.
  - intros P. apply (casc_owner _ _ Hc).
  - intros P Q. apply (casc_links _ _ Hc).
Qed.

Lemma Invoke_footprint_witness :
  (forall N Obj, NodeObjs Samples.ChainState !! N = Some Obj ->
     NodeObjs (Spawned (CreateForCustomEvent 1 "Foo") 0 (0, 0)%Z
                 (RunRemoveGhostNodes (Some 0) 0 Samples.ChainState)) !! N = Some Obj)
  /\ length (NodeObjs (Spawned (CreateForCustomEvent 1 "Foo") 0 (0, 0)%Z
                         (RunRemoveGhostNodes (Some 0) 0 Samples.ChainState)))
     <= S (length (NodeObjs Samples.ChainState))
  /\ (forall G, GraphMeta (Spawned (CreateForCustomEvent 1 "Foo") 0 (0, 0)%Z
                             (RunRemoveGhostNodes (Some 0) 0 Samples.ChainState)) G
                = GraphMeta Samples.ChainState G)
  /\ (forall G, Some G <> Some 0 ->
        NodesOf (Spawned (CreateForCustomEvent 1 "Foo") 0 (0, 0)%Z
                   (RunRemoveGhostNodes (Some 0) 0 Samples.ChainState)) G
        = NodesOf Samples.ChainState G)
  /\ (forall P, GetOwningNode (Spawned (CreateForCustomEvent 1 "Foo") 0 (0, 0)%Z
                                 (RunRemoveGhostNodes (Some 0) 0 Samples.ChainState)) P
                = GetOwningNode Samples.ChainState P)
  /\ (forall P Q,
        In Q (LinkedToOf (Spawned (CreateForCustomEvent 1 "Foo") 0 (0, 0)%Z
                            (RunRemoveGhostNodes (Some 0) 0 Samples.ChainState)) P) ->
        In Q (LinkedToOf Samples.ChainState P)).
Proof.
  apply (Invoke_footprint (CreateForCustomEvent 1 "Foo") (Some 0) (0, 0)%Z
           Samples.ChainState _ (Some 4)).
  reflexivity.
Defined.

(** X8. [Invoke] never takes a live node out of a graph: a node that is in a
    graph before the call and is not an automatically placed ghost is in that
    graph after the call. *)
Theorem Invoke_keeps_live_nodes (Sp : UBlueprintEventNodeSpawner)
    (ParentGraph : option GraphId) (Location : Z * Z) (st st' : State)
    (Result : option NodeId) (G : GraphId) (N : NodeId) :
  Invoke Sp ParentGraph Location st = Ok (Result, st') ->
  In N (NodesOf st G) ->
  IsAutomaticallyPlacedGhostNode st N = false ->
  In N (NodesOf st' G).
Proof.
  intros H HN Hlive.
  destruct (Invoke_Ok_graph _ _ _ _ _ _ H) as (G0 & BP & -> & HBP).
  destruct (Invoke_inv _ _ _ _ _ _ _ HBP H)
    as [[_ ->]|[(_ & M & _ & -> & _)|(_ & InNode & _ & ->)]]; try assumption.
  apply NodesOf_Spawned_incl.
  apply (casc_live _ _ (RunRemoveGhostNodes_Cascaded InNode G0 st)); assumption.
Qed.

Lemma Invoke_keeps_live_nodes_witness :
  In 3 (NodesOf (Spawned (CreateForCustomEvent 1 "Foo") 0 (0, 0)%Z
                   (RunRemoveGhostNodes (Some 0) 0 Samples.ChainState)) 0).
Proof.
  apply (Invoke_keeps_live_nodes (CreateForCustomEvent 1 "Foo") (Some 0) (0, 0)%Z
           Samples.ChainState _ (Some 4) 0 3).
  - reflexivity.
  - simpl. tauto.
  - reflexivity.
Defined.

(** X9. Reuse: on a graph that is no template outer, when no function graph
    carries the event name and the lookup finds a node that is not a ghost,
    [Invoke] returns that node and leaves the state as it was. *)
Theorem Invoke_reuses_live_node (Sp : UBlueprintEventNodeSpawner) (st : State)
    (G : GraphId) (Location : Z * Z) (Blueprint : UBlueprint) (N : NodeId) :
  FindBlueprintForGraphChecked st G = Ok Blueprint ->
  IsTemplateOuter st G = false ->
  NoneNamed st (EventNameOf Sp) (FunctionGraphs Blueprint) = true ->
  FindPreExistingEvent Sp st (Some Blueprint) = Ok (Some N) ->
  IsAutomaticallyPlacedGhostNode st N = false ->
  Invoke Sp (Some G) Location st = Ok (Some N, st).
Proof.
  intros HBP HT Hnn Hfind Hlive.
  rewrite FindPreExistingEvent_find in Hfind. injection Hfind as Hfind.
  rewrite (Invoke_unfold _ _ _ _ _ HBP).
  rewrite (FocusOnFunctionGraph_NoneNamed_all _ _ _ Hnn), HT, Hfind, Hlive.
  reflexivity.
Qed.

Lemma Invoke_reuses_live_node_witness :
  Invoke (CreateForCustomEvent 1 "Foo") (Some 0) (3, 4)%Z MoreSamples.LiveFooState
  = Ok (Some 0, MoreSamples.LiveFooState).
Proof.
  apply (Invoke_reuses_live_node _ _ _ _ Samples.EventGraphOnly); reflexivity.
Defined.

Lemma FocusOnFunctionGraph_entry (st : State) (Name : FName)
    (l : list (option GraphId)) (Entry : NodeId) :
  FocusOnFunctionGraph st Name l = Some (Some Entry) ->
  NodeHas st IsFunctionEntry Entry = true.
Proof.
  induction l as [|FG l IH]; simpl; [discriminate|].
  destruct (FG ≫= (fun G => GraphObjs st !! G)) as [Obj|]; [|exact IH].
  destruct (bool_decide (GraphFName Obj = Name)); [|exact IH].
  destruct (GetFunctionEntryNodes st Obj) as [|E l'] eqn:HE; [discriminate|].
  intros [= <-].
  assert (In E (GetFunctionEntryNodes st Obj)) as Hin by (rewrite HE; left; reflexivity).
  unfold GetFunctionEntryNodes in Hin. apply filter_In in Hin. tauto.
Qed.

(** X10. What [Invoke] hands back: with a customization hook that keeps the
    identity of the node, a node returned by [Invoke] is an object of the
    node table of the resulting state, and it is a function-entry node or an
    event node. *)
Theorem Invoke_returns_entry_or_event (Sp : UBlueprintEventNodeSpawner)
    (ParentGraph : option GraphId) (Location : Z * Z) (st st' : State)
    (N : NodeId) :
  KeepsIdentity (CustomizeNodeDelegate Sp) ->
  Invoke Sp ParentGraph Location st = Ok (Some N, st') ->
  exists Obj, NodeObjs st' !! N = Some Obj
    /\ (IsFunctionEntry Obj = true \/ IsEventNode Obj = true).
Proof.
  intros HK H.
  destruct (Invoke_Ok_graph _ _ _ _ _ _ H) as (G & BP & -> & HBP).
  destruct (Invoke_inv _ _ _ _ _ _ _ HBP H)
    as [[HF ->]|[(_ & M & [= <-] & -> & HM & _)|(_ & InNode & [= ->] & ->)]].
  - apply FocusOnFunctionGraph_entry, NodeHas_Some in HF.
    destruct HF as (Obj & E & HE). exists Obj. tauto.
  - unfold GetAllEventNodes in HM. apply filter_In in HM.
    destruct HM as [_ HM]. apply NodeHas_Some in HM.
    destruct HM as (Obj & E & HE). exists Obj. tauto.
  - exists (SpawnedNode Sp (IsTemplateOuter (RunRemoveGhostNodes InNode G st) G)
              Location).
    split; [|right; apply SpawnedNode_event, HK].
    rewrite <- (casc_nodes _ _ (RunRemoveGhostNodes_Cascaded InNode G st)).
    apply NodeObjs_Spawned_new.
Qed.

Lemma Invoke_returns_entry_or_event_witness :
  exists Obj, NodeObjs Samples.ShadowState !! 1 = Some Obj
    /\ (IsFunctionEntry Obj = true \/ IsEventNode Obj = true).
Proof.
  apply (Invoke_returns_entry_or_event (CreateForCustomEvent 1 "Foo") (Some 0)
           (0, 0)%Z Samples.ShadowState Samples.ShadowState 1).
  - exact I.
  - reflexivity.
Defined.

(** * [Invoke]: the node it spawns *)

Lemma SpawnedNode_fields (Sp : UBlueprintEventNodeSpawner) (b : bool) (Loc : Z * Z) :
  KeepsIdentity (CustomizeNodeDelegate Sp) ->
  (forall F, EventFunc Sp = Some F ->
     bOverrideFunction (SpawnedNode Sp b Loc) = true
     /\ EventReference (SpawnedNode Sp b Loc) = SetFromField F
     /\ CustomFunctionName (SpawnedNode Sp b Loc) = NAME_None)
  /\ (EventFunc Sp = None ->
      bOverrideFunction (SpawnedNode Sp b Loc) = false
      /\ CustomFunctionName (SpawnedNode Sp b Loc)
         = if b then NAME_None else CustomEventName Sp).
Proof.
  intros HK. unfold SpawnedNode, PostSpawnLambda, EventNameOf.
  split.
  - intros F HF. rewrite HF.
    destruct (ExecuteIfBound_keeps (CustomizeNodeDelegate Sp)
                (WithEventReference (SetFromField F) (NewObject (NodeClass Sp) Loc))
                b HK) as (_ & _ & -> & -> & ->).
    repeat split.
  - intros HF. rewrite HF.
    destruct (ExecuteIfBound_keeps (CustomizeNodeDelegate Sp)
                (if negb b
                 then WithCustomFunctionName (CustomEventName Sp)
                        (NewObject (NodeClass Sp) Loc)
                 else NewObject (NodeClass Sp) Loc)
                b HK) as (_ & _ & _ & -> & ->).
    destruct b; split; reflexivity.
Qed.

(** X11. How a spawned node is set up, for a customization hook that, when
    bound, keeps the class, the enabled state and the event members (override
    flag, function reference, custom name) of the node it is handed; the hook
    runs last, so a hook that rewrites those would have the final word. When
    [Invoke] gets to spawn (the graph is a template outer, or the lookup found
    nothing) and no function graph carries the event name, it returns a node
    that was not in the node table before, is in the parent graph after, is
    an event node and no ghost. With a function reference the node is flagged
    as an override of that function and gets no custom name, also when the
    spawner holds one; without, the node is no override and carries the
    custom name of the spawner, except in a template outer, where it stays
    unnamed. *)
Theorem Invoke_spawn_initialises (Sp : UBlueprintEventNodeSpawner) (st : State)
    (G : GraphId) (Location : Z * Z) (Blueprint : UBlueprint) :
  FindBlueprintForGraphChecked st G = Ok Blueprint ->
  NoneNamed st (EventNameOf Sp) (FunctionGraphs Blueprint) = true ->
  KeepsIdentity (CustomizeNodeDelegate Sp) ->
  IsTemplateOuter st G = true
    \/ FindPreExistingEvent Sp st (Some Blueprint) = Ok None ->
  exists Obj st',
    Invoke Sp (Some G) Location st = Ok (Some (length (NodeObjs st)), st')
    /\ NodeObjs st !! length (NodeObjs st) = None
    /\ NodeObjs st' !! length (NodeObjs st) = Some Obj
    /\ In (length (NodeObjs st)) (NodesOf st' G)
    /\ IsEventNode Obj = true
    /\ bAutomaticallyPlacedGhost Obj = false
    /\ (forall F, EventFunc Sp = Some F ->
          bOverrideFunction Obj = true
          /\ EventReference Obj = SetFromField F
          /\ CustomFunctionName Obj = NAME_None)
    /\ (EventFunc Sp = None ->
          bOverrideFunction Obj = false
          /\ CustomFunctionName Obj
             = if IsTemplateOuter st G then NAME_None else CustomEventName Sp).
Proof.
  intros HBP Hnn HK Hspawn.
  destruct (FindBlueprintForGraphChecked_valid _ _ _ HBP) as [GObj HG].
  exists (SpawnedNode Sp (IsTemplateOuter st G) Location), (Spawned Sp G Location st).
  split; [|split; [|split; [|split; [|split; [|split]]]]].
  - rewrite (Invoke_unfold _ _ _ _ _ HBP).
    rewrite (FocusOnFunctionGraph_NoneNamed_all _ _ _ Hnn).
    destruct Hspawn as [->|Hfind]; [reflexivity|].
    rewrite FindPreExistingEvent_find in Hfind. injection Hfind as ->.
    destruct (IsTemplateOuter st G); reflexivity.
  - apply lookup_ge_None_2. lia.
  - apply NodeObjs_Spawned_new.
  - rewrite (NodesOf_Spawned _ _ _ _ _ HG). apply in_or_app. right. left. reflexivity.
  - apply SpawnedNode_event, HK.
  - apply SpawnedNode_live, HK.
  - apply SpawnedNode_fields, HK.
Qed.

Lemma Invoke_spawn_initialises_witness :
  exists Obj st',
    Invoke MoreSamples.JumpAndFoo (Some 0) (0, 0)%Z Samples.EmptyState
      = Ok (Some 0, st')
    /\ NodeObjs Samples.EmptyState !! 0 = None
    /\ NodeObjs st' !! 0 = Some Obj
    /\ In 0 (NodesOf st' 0)
    /\ IsEventNode Obj = true
    /\ bAutomaticallyPlacedGhost Obj = false
    /\ (forall F, EventFunc MoreSamples.JumpAndFoo = Some F ->
          bOverrideFunction Obj = true
          /\ EventReference Obj = SetFromField F
          /\ CustomFunctionName Obj = NAME_None)
    /\ (EventFunc MoreSamples.JumpAndFoo = None ->
          bOverrideFunction Obj = false
          /\ CustomFunctionName Obj
             = if IsTemplateOuter Samples.EmptyState 0 then NAME_None
               else CustomEventName MoreSamples.JumpAndFoo).
Proof.
  apply (Invoke_spawn_initialises MoreSamples.JumpAndFoo Samples.EmptyState 0
           (0, 0)%Z Samples.EventGraphOnly).
  - reflexivity.
  - reflexivity.
  - exact I.
  - right. reflexivity.
Defined.

(** * [Invoke]: one node per event *)

Lemma Spawned_only_match (Sp : UBlueprintEventNodeSpawner) (G : GraphId)
    (Loc : Z * Z) (s : State) (BP : UBlueprint) (Obj : UEdGraph) :
  UbergraphPages BP = [G] ->
  GraphObjs s !! G = Some Obj ->
  (forall N, In N (NodesOf s G) -> NodeHas s IsEventNode N = true ->
             NodeHas s (MatchesIdentity Sp) N = false) ->
  forall N, In N (GetAllEventNodes (Spawned Sp G Loc s) BP) ->
            NodeHas (Spawned Sp G Loc s) (MatchesIdentity Sp) N = true ->
            N = length (NodeObjs s).
Proof.
  intros HP HObj Hnone N HN Hm.
  apply (In_GetAllEventNodes _ BP G N HP) in HN. destruct HN as [HN He].
  destruct (decide (N = length (NodeObjs s))) as [->|Hne]; [reflexivity|].
  exfalso. rewrite NodeHas_Spawned in He, Hm.
  destruct (decide (N = length (NodeObjs s))); [contradiction|].
  rewrite (NodesOf_Spawned _ _ _ _ _ HObj) in HN. apply in_app_or in HN.
  destruct HN as [HN|[HN|[]]]; [|congruence].
  rewrite (Hnone N HN He) in Hm. discriminate.
Qed.

Lemma no_match_after_cascade (Sp : UBlueprintEventNodeSpawner) (G : GraphId)
    (st : State) (BP : UBlueprint) (Ghost : NodeId) :
  UbergraphPages BP = [G] ->
  MatchCount Sp st BP <= 1 ->
  In Ghost (GetAllEventNodes st BP) ->
  NodeHas st (MatchesIdentity Sp) Ghost = true ->
  IsAutomaticallyPlacedGhostNode st Ghost = true ->
  forall N, In N (NodesOf (RunRemoveGhostNodes (Some Ghost) G st) G) ->
    NodeHas (RunRemoveGhostNodes (Some Ghost) G st) IsEventNode N = true ->
    NodeHas (RunRemoveGhostNodes (Some Ghost) G st) (MatchesIdentity Sp) N = false.
Proof.
  intros HP Hone HGin HGm Hghost N HN He.
  pose proof (RunRemoveGhostNodes_Cascaded (Some Ghost) G st) as Hc.
  destruct (NodeHas (RunRemoveGhostNodes (Some Ghost) G st) (MatchesIdentity Sp) N)
    eqn:Hm; [|reflexivity].
  exfalso. rewrite (NodeHas_nodes st) in He, Hm by apply Hc.
  assert (N = Ghost) as ->.
  { apply (filter_at_most_one (NodeHas st (MatchesIdentity Sp))
             (GetAllEventNodes st BP)); try assumption.
    apply (In_GetAllEventNodes st BP G N HP).
    split; [apply (casc_graph _ _ Hc), HN|exact He]. }
  apply (RunRemoveGhostNodes_removes Ghost G st Hghost). exact HN.
Qed.

(** X12. One node per event: on a graph that is no template outer, the one
    event graph of its blueprint, with at most one node matching the
    identity, no function graph carrying the event name and a customization
    hook that keeps the identity of the node, [Invoke] returns a node that
    matches the identity, and in the state it leaves no other event node of
    the blueprint does. *)
Theorem Invoke_leaves_one_match (Sp : UBlueprintEventNodeSpawner) (st : State)
    (G : GraphId) (Location : Z * Z) (Blueprint : UBlueprint) :
  FindBlueprintForGraphChecked st G = Ok Blueprint ->
  IsTemplateOuter st G = false ->
  UbergraphPages Blueprint = [G] ->
  NoneNamed st (EventNameOf Sp) (FunctionGraphs Blueprint) = true ->
  KeepsIdentity (CustomizeNodeDelegate Sp) ->
  MatchCount Sp st Blueprint <= 1 ->
  exists Result st',
    Invoke Sp (Some G) Location st = Ok (Some Result, st')
    /\ In Result (GetAllEventNodes st' Blueprint)
    /\ NodeHas st' (MatchesIdentity Sp) Result = true
    /\ forall N, In N (GetAllEventNodes st' Blueprint) ->
                 NodeHas st' (MatchesIdentity Sp) N = true -> N = Result.
Proof.
  intros HBP HT HP Hnn HK Hone.
  destruct (FindBlueprintForGraphChecked_valid _ _ _ HBP) as [Obj HObj].
  pose proof (Invoke_unfold Sp G Location st Blueprint HBP) as H1.
  rewrite (FocusOnFunctionGraph_NoneNamed_all _ _ _ Hnn), HT in H1.
  assert (forall s Obj1, GraphObjs s !! G = Some Obj1 -> IsTemplateOuter s G = false ->
            In (length (NodeObjs s)) (GetAllEventNodes (Spawned Sp G Location s) Blueprint)
            /\ NodeHas (Spawned Sp G Location s) (MatchesIdentity Sp)
                 (length (NodeObjs s)) = true) as Hnew.
  { intros s Obj1 HO HTs. split.
    - apply (In_GetAllEventNodes _ Blueprint G _ HP). split.
      + rewrite (NodesOf_Spawned _ _ _ _ _ HO). apply in_or_app. right. left. reflexivity.
      + rewrite NodeHas_Spawned.
        destruct (decide (length (NodeObjs s) = length (NodeObjs s))); [|congruence].
        apply SpawnedNode_event, HK.
    - rewrite NodeHas_Spawned.
      destruct (decide (length (NodeObjs s) = length (NodeObjs s))); [|congruence].
      rewrite HTs. apply SpawnedNode_matches, HK. }
  destruct (List.find (NodeHas st (MatchesIdentity Sp)) (GetAllEventNodes st Blueprint))
    as [N|] eqn:Hfind.
  - pose proof (find_some _ _ Hfind) as [HNin HNm].
    destruct (IsAutomaticallyPlacedGhostNode st N) eqn:Hghost.
    + set (st1 := RunRemoveGhostNodes (Some N) G st) in *.
      pose proof (RunRemoveGhostNodes_Cascaded (Some N) G st) as Hc. fold st1 in Hc.
      assert (exists Obj1, GraphObjs st1 !! G = Some Obj1) as [Obj1 HObj1].
      { apply (FindBlueprintForGraphChecked_valid st1 G Blueprint).
        rewrite (FindBlueprintForGraphChecked_meta st); [exact HBP|apply Hc]. }
      assert (IsTemplateOuter st1 G = false) as HT1.
      { rewrite (IsTemplateOuter_meta st); [exact HT|apply Hc]. }
      exists (length (NodeObjs st1)), (Spawned Sp G Location st1).
      split; [exact H1|]. destruct (Hnew st1 Obj1 HObj1 HT1) as [Hin Hm].
      split; [exact Hin|]. split; [exact Hm|].
      apply (Spawned_only_match Sp G Location st1 Blueprint Obj1 HP HObj1).
      apply (no_match_after_cascade Sp G st Blueprint N); assumption.
    + exists N, st. split; [exact H1|]. split; [exact HNin|]. split; [exact HNm|].
      intros M HM HMm.
      apply (filter_at_most_one (NodeHas st (MatchesIdentity Sp))
               (GetAllEventNodes st Blueprint)); assumption.
  - exists (length (NodeObjs st)), (Spawned Sp G Location st).
    split; [exact H1|]. destruct (Hnew st Obj HObj HT) as [Hin Hm].
    split; [exact Hin|]. split; [exact Hm|].
    apply (Spawned_only_match Sp G Location st Blueprint Obj HP HObj).
    intros N HN He. apply (find_none _ _ Hfind N).
    apply (In_GetAllEventNodes st Blueprint G N HP). split; assumption.
Qed.

Lemma Invoke_leaves_one_match_witness :
  exists Result st',
    Invoke (CreateForCustomEvent 1 "Foo") (Some 0) (0, 0)%Z Samples.ChainState
      = Ok (Some Result, st')
    /\ In Result (GetAllEventNodes st' Samples.EventGraphOnly)
    /\ NodeHas st' (MatchesIdentity (CreateForCustomEvent 1 "Foo")) Result = true
    /\ forall N, In N (GetAllEventNodes st' Samples.EventGraphOnly) ->
                 NodeHas st' (MatchesIdentity (CreateForCustomEvent 1 "Foo")) N = true ->
                 N = Result.
Proof.
  apply (Invoke_leaves_one_match (CreateForCustomEvent 1 "Foo") Samples.ChainState 0
           (0, 0)%Z Samples.EventGraphOnly).
  - reflexivity.
  - reflexivity.
  - reflexivity.
  - reflexivity.
  - exact I.
  - vm_compute. lia.
Defined.

(** * The lookup and the signature *)

(** X13. The check of line 254 is dead code. [FindPreExistingEvent] stops at
    an assertion exactly when the blueprint is null (line 247): on a
    blueprint the branch of line 252 is entered only with a function
    reference at hand, since [IsForCustomEvent] is the test that there is
    none, so the lookup answers for every spawner, the one with neither
    function nor name included. *)
Theorem FindPreExistingEvent_fails_only_on_null (Sp : UBlueprintEventNodeSpawner)
    (st : State) (Blueprint : option UBlueprint) :
  FindPreExistingEvent Sp st Blueprint = AssertionFailed <-> Blueprint = None.
Proof.
  split.
  - destruct Blueprint as [BP|]; [|reflexivity].
    unfold FindPreExistingEvent, IsForCustomEvent.
    destruct (EventFunc Sp); discriminate.
  - intros ->. reflexivity.
Qed.

(** X14. The signature tells identities apart and nothing else: two
    spawners have the same signature exactly when they have the same node
    class, the same function reference and, without a function reference,
    the same custom name. A custom name next to a function reference and the
    customization hook play no part. *)
Theorem GetSpawnerSignature_same_identity (A B : UBlueprintEventNodeSpawner) :
  GetSpawnerSignature A = GetSpawnerSignature B <-> SameIdentity A B.
Proof.
  unfold GetSpawnerSignature, SameIdentity, IsForCustomEvent, AddNamedValue,
    AddSubObject, IsNone; simpl.
  destruct (EventFunc A) as [FA|], (EventFunc B) as [FB|]; simpl.
  - split.
    + intros [= -> ->]. repeat split. discriminate.
    + intros (-> & [= ->] & _). reflexivity.
  - destruct (bool_decide (CustomEventName B = NAME_None)); simpl;
      (split; [intros [= _ ?]; discriminate|intros (_ & ? & _); discriminate]).
  - destruct (bool_decide (CustomEventName A = NAME_None)); simpl;
      (split; [intros [= _ ?]; discriminate|intros (_ & ? & _); discriminate]).
  - destruct (bool_decide (CustomEventName A = NAME_None)) eqn:EA,
             (bool_decide (CustomEventName B = NAME_None)) eqn:EB; simpl.
    + apply bool_decide_eq_true in EA, EB. split.
      * intros [= ->]. repeat split. congruence.
      * intros (-> & _ & _). reflexivity.
    + apply bool_decide_eq_true in EA. apply bool_decide_eq_false in EB. split.
      * intros [= _]. 
      * intros (_ & _ & H). specialize (H eq_refl). congruence.
    + apply bool_decide_eq_false in EA. apply bool_decide_eq_true in EB. split.
      * intros [= _].
      * intros (_ & _ & H). specialize (H eq_refl). congruence.
    + split.
      * intros [= -> ->]. repeat split.
      * intros (-> & _ & H). rewrite (H eq_refl). reflexivity.
Qed.

(** * [Invoke] and the pin table *)

Lemma PinsOf_Spawned (Sp : UBlueprintEventNodeSpawner) (G : GraphId)
    (Loc : Z * Z) (st : State) (N : NodeId) :
  LeavesPins (CustomizeNodeDelegate Sp) ->
  PinsOf (Spawned Sp G Loc st) N = PinsOf st N.
Proof.
  intros HL. unfold PinsOf, Spawned; simpl.
  destruct (Nat.lt_ge_cases N (length (NodeObjs st))) as [Hlt|Hge].
  - rewrite lookup_app_l by exact Hlt. reflexivity.
  - rewrite (lookup_ge_None_2 (NodeObjs st)) by exact Hge.
    destruct (decide (N = length (NodeObjs st))) as [->|Hne].
    + rewrite list_lookup_middle by reflexivity.
      unfold SpawnedNode, PostSpawnLambda, ExecuteIfBound.
      unfold LeavesPins in HL.
      destruct (CustomizeNodeDelegate Sp) as [f|]; [rewrite HL|];
        destruct (EventFunc Sp); [reflexivity| |reflexivity|];
        destruct (negb (IsTemplateOuter st G)); reflexivity.
    + rewrite lookup_ge_None_2; [reflexivity|]. rewrite length_app; simpl. lia.
Qed.

(** X15. [Invoke] keeps the pin table well formed: with a customization
    hook that leaves the pins of the new node alone, a call on a well-formed
    pin table that returns leaves a well-formed pin table. *)
Theorem Invoke_keeps_pins_well_formed (Sp : UBlueprintEventNodeSpawner)
    (ParentGraph : option GraphId) (Location : Z * Z) (st st' : State)
    (Result : option NodeId) :
  LeavesPins (CustomizeNodeDelegate Sp) ->
  WellFormedPins st = true ->
  Invoke Sp ParentGraph Location st = Ok (Result, st') ->
  WellFormedPins st' = true.
Proof.
  intros HL Hwf H.
  destruct (Invoke_Ok_graph _ _ _ _ _ _ H) as (G & BP & -> & HBP).
  destruct (Invoke_inv _ _ _ _ _ _ _ HBP H)
    as [[_ ->]|[(_ & M & _ & -> & _)|(_ & InNode & _ & ->)]]; try assumption.
  destruct (WellFormedPins_sound st Hwf) as (Hown & Hlisted & Hsym).
  pose proof (RunRemoveGhostNodes_Some InNode G st) as Hrun.
  pose proof (RemoveGhostNodes_Cascaded _ _ _ _ _ Hrun) as Hc.
  apply (PinsOwned_Cascaded _ _ Hc) in Hown.
  apply (OwnedPinsListed_Cascaded _ _ Hc) in Hlisted.
  apply (RemoveGhostNodes_symmetric _ _ _ _ _ Hrun) in Hsym.
  unfold WellFormedPins. rewrite !Bool.andb_true_iff. split; [split|].
  - apply PinsOwnedb_complete. intros N P. rewrite (PinsOf_Spawned _ _ _ _ _ HL).
    apply Hown.
  - apply OwnedPinsListedb_complete. intros N P.
    rewrite (PinsOf_Spawned _ _ _ _ _ HL). apply Hlisted.
  - apply LinksSymmetricb_complete. exact Hsym.
Qed.

Lemma Invoke_keeps_pins_well_formed_witness :
  WellFormedPins (Spawned (CreateForCustomEvent 1 "Foo") 0 (0, 0)%Z
                    (RunRemoveGhostNodes (Some 0) 0 MoreSamples.MixedState)) = true.
Proof.
  apply (Invoke_keeps_pins_well_formed (CreateForCustomEvent 1 "Foo") (Some 0)
           (0, 0)%Z MoreSamples.MixedState _ (Some 4)).
  - exact I.
  - reflexivity.
  - reflexivity.
Defined.

(** * Menu entries *)

(** X16. The menu entry of a function-backed spawner never has empty
    keywords: keywords found for the function are kept, and when none are
    found a single blank stands in. *)
Theorem MenuSignatureForFunction_keywords (Ui : FFunctionUiData) :
  Keywords (MenuSignatureForFunction Ui) <> ""
  /\ (KeywordsForFunction Ui <> "" ->
      Keywords (MenuSignatureForFunction Ui) = KeywordsForFunction Ui)
  /\ (KeywordsForFunction Ui = "" -> Keywords (MenuSignatureForFunction Ui) = " ").
Proof.
  unfold MenuSignatureForFunction, IsEmpty; simpl.
  destruct (bool_decide (KeywordsForFunction Ui = "")) eqn:E.
  - apply bool_decide_eq_true in E. split; [discriminate|]. split; [tauto|reflexivity].
  - apply bool_decide_eq_false in E. split; [exact E|]. split; [reflexivity|tauto].
Qed.

Lemma MenuSignatureForFunction_keywords_witness :
  Keywords (MenuSignatureForFunction
              {| FriendlySignatureName := "Jump"; DefaultCategoryForFunction := "Add Event";
                 KeywordsForFunction := "leap hop" |}) = "leap hop"
  /\ Keywords (MenuSignatureForFunction
                 {| FriendlySignatureName := "Jump"; DefaultCategoryForFunction := "Add Event";
                    KeywordsForFunction := "" |}) = " ".
Proof.
  split.
  - apply (proj1 (proj2 (MenuSignatureForFunction_keywords
             {| FriendlySignatureName := "Jump"; DefaultCategoryForFunction := "Add Event";
                KeywordsForFunction := "leap hop" |}))).
    discriminate.
  - apply (proj2 (proj2 (MenuSignatureForFunction_keywords
             {| FriendlySignatureName := "Jump"; DefaultCategoryForFunction := "Add Event";
                KeywordsForFunction := "" |}))).
    reflexivity.
Defined.

(** X17. The menu entry of a custom-event spawner reads "Add Custom
    Event..." exactly when the custom name is unset, and exactly then has the
    custom-event icon; a named spawner reads "Event" followed by its name
    and has the event icon. *)
Theorem MenuSignatureForCustomEvent_unnamed (Name : FName) :
  (Name = NAME_None <->
   MenuName (MenuSignatureForCustomEvent Name) = "Add Custom Event...")
  /\ (Name = NAME_None <->
      Icon (MenuSignatureForCustomEvent Name) = "GraphEditor.CustomEvent_16x")
  /\ (Name <> NAME_None ->
      MenuName (MenuSignatureForCustomEvent Name) = EventWithSignatureName Name
      /\ Icon (MenuSignatureForCustomEvent Name) = "GraphEditor.Event_16x").
Proof.
  unfold MenuSignatureForCustomEvent, IsNone, EventWithSignatureName.
  destruct (bool_decide (Name = NAME_None)) eqn:E; simpl.
  - apply bool_decide_eq_true in E. repeat split; try tauto; contradiction.
  - apply bool_decide_eq_false in E.
    repeat split; try tauto; try (intros ?; discriminate); intros ?; contradiction.
Qed.

Lemma MenuSignatureForCustomEvent_unnamed_witness :
  MenuName (MenuSignatureForCustomEvent "Foo") = "Event Foo"
  /\ Icon (MenuSignatureForCustomEvent "Foo") = "GraphEditor.Event_16x".
Proof.
  apply (proj2 (proj2 (MenuSignatureForCustomEvent_unnamed "Foo"))). discriminate.
Defined.
